(** * UDS extraction pipeline: a shallow embedding of
      [src/data/uds_extraction.py] and the properties of its catalog builder,
      column aligner, assessment tagger, availability summarizer and
      empty-row detector. *)

From Stdlib Require Import QArith Ascii String.
From Stdlib Require Floats.SpecFloat.
From stdpp Require Import base list strings numbers sorting gmap.

Close Scope Q_scope.
Open Scope string_scope.
Open Scope list_scope.

(** ** Exceptions and the error monad

    The Python functions either return or raise; the lookup failures that
    matter here are [KeyError] (a missing label), [IndexError] (a page or
    cell index out of range) and [TypeError] (a frame where a column was
    expected). *)

Inductive exn : Type :=
  | KeyError
  | IndexError
  | TypeError.

Inductive result (A : Type) : Type :=
  | Ok (a : A)
  | Raise (e : exn).

Arguments Ok {A} a.
Arguments Raise {A} e.

Global Instance result_ret : MRet result := λ A a, Ok a.
Global Instance result_bind : MBind result := λ A B f m,
  match m with
  | Ok a => f a
  | Raise e => Raise e
  end.

(** ** Cell values

    A dataset cell is an absent marker (NaN / None), a finite number, a
    string or a boolean. *)

Inductive value : Type :=
  | VNa
  | VNum (q : Q)
  | VStr (s : string)
  | VBool (b : bool).

(** [series.notna()], element by element. *)
Definition notna (v : value) : bool :=
  match v with
  | VNa => false
  | _ => true
  end.

(** [series != missing_sentinel], element by element: numbers compare by
    value (so [-4.0 != -4] is false), booleans compare as 1 and 0, strings
    and absent markers never equal a number. *)
Definition ne_sentinel (missing_sentinel : Q) (v : value) : bool :=
  match v with
  | VNa => true
  | VNum q => negb (Qeq_bool q missing_sentinel)
  | VStr _ => true
  | VBool b => negb (Qeq_bool (if b then 1%Q else 0%Q) missing_sentinel)
  end.

(** [s.notna() & (s != missing_sentinel)], element by element. *)
Definition is_valid (missing_sentinel : Q) (v : value) : bool :=
  notna v && ne_sentinel missing_sentinel v.

Definition default_sentinel : Q := (-4)%Q.

(** ** Data frames

    A frame is an index of [index_len] records and an ordered list of
    labelled columns.  A row [Series] is the list of the labelled cells of
    one record. *)

Record DataFrame : Type := {
  index_len : nat;
  frame_columns : list (string * list value)
}.

Definition Series : Type := list (string * value).

(** [df.columns] *)
Definition columns (df : DataFrame) : list string := (frame_columns df).*1.

(** [len(df)] *)
Definition len (df : DataFrame) : nat := index_len df.

(** Frames as pandas builds them: every column has one cell per record and
    no two columns share a label. *)
Definition wf_frame (df : DataFrame) : Prop :=
  Forall (λ c, length c.2 = index_len df) (frame_columns df) ∧
  NoDup (columns df).

(** The cell of column [c] at record [i]. *)
Definition cell_at (i : nat) (c : string * list value) : value :=
  default VNa (c.2 !! i).

(** Record [i] as a row [Series]. *)
Definition row_at (df : DataFrame) (i : nat) : Series :=
  (λ c, (c.1, cell_at i c)) <$> frame_columns df.

(** The rows handed to [df.apply(f, axis=1)], in index order. *)
Definition iterrows (df : DataFrame) : list Series :=
  row_at df <$> seq 0 (index_len df).

(** All entries carrying [label]. *)
Definition with_label {A : Type} (label : string) (l : list (string * A))
  : list (string * A) :=
  filter (λ c, c.1 = label) l.

(** Selection by a list of labels, [obj[labels]]: for each requested label
    in turn, every entry that carries it; a label that nothing carries
    raises [KeyError]. *)
Fixpoint getitem_list {A : Type} (l : list (string * A)) (labels : list string)
  : result (list (string * A)) :=
  match labels with
  | [] => mret []
  | label :: labels' =>
      match with_label label l with
      | [] => Raise KeyError
      | found => rest ← getitem_list l labels'; mret (found ++ rest)
      end
  end.

(** [df[labels]] and [df.loc[:, labels]] *)
Definition frame_getitem_list (df : DataFrame) (labels : list string)
  : result DataFrame :=
  cols ← getitem_list (frame_columns df) labels;
  mret {| index_len := index_len df; frame_columns := cols |}.

(** [df[label] = vals]: overwrite the column when the label exists, append
    a new last column otherwise. *)
Definition frame_setitem (df : DataFrame) (label : string) (vals : list value)
  : DataFrame :=
  {| index_len := index_len df;
     frame_columns :=
       if bool_decide (label ∈ columns df)
       then (λ c, if bool_decide (c.1 = label) then (c.1, vals) else c)
              <$> frame_columns df
       else frame_columns df ++ [(label, vals)] |}.

(** A scalar assigned to a column is broadcast over the index. *)
Definition broadcast (df : DataFrame) (v : value) : list value :=
  replicate (index_len df) v.

(** ** Empty-row detector *)

Definition default_exclude : list string := ["has_MMSE"; "has_MOCA"].

(** [_row_empty] of [compute_empty_rows_mask]. *)
Definition _row_empty (data_cols : list string) (missing_sentinel : Q)
    (row : Series) : result bool :=
  vals ← getitem_list row data_cols;
  mret (negb (existsb (is_valid missing_sentinel) vals.*2)).

Definition compute_empty_rows_mask (df : DataFrame) (exclude : list string)
    (missing_sentinel : Q) : result (list bool) :=
  let data_cols := filter (λ c, c ∉ exclude) (columns df) in
  mapM (_row_empty data_cols missing_sentinel) (iterrows df).

(** ** Assessment tagger *)

(** [_is_valid] of [tag_assessments], on the cells of a [Series]. *)
Definition _is_valid (missing_sentinel : Q) (series : list value) : list bool :=
  is_valid missing_sentinel <$> series.

(** [Series.any()] on a boolean series. *)
Definition series_any (s : list bool) : bool := existsb id s.

(** [out[cols].apply(lambda s: _is_valid(s).any(), axis=1) if cols else False],
    the value assigned to a flag column. *)
Definition assessment_flags (out : DataFrame) (cols : list string)
    (missing_sentinel : Q) : result (list value) :=
  if bool_decide (cols = []) then mret (broadcast out (VBool false))
  else
    sub ← frame_getitem_list out cols;
    mret ((λ s : Series, VBool (series_any (_is_valid missing_sentinel s.*2)))
            <$> iterrows sub).

Definition tag_assessments (df : DataFrame) (mmse_cols moca_cols : list string)
    (missing_sentinel : Q) : result DataFrame :=
  let out := df in
  has_mmse ← assessment_flags out mmse_cols missing_sentinel;
  let out := frame_setitem out "has_MMSE" has_mmse in
  has_moca ← assessment_flags out moca_cols missing_sentinel;
  let out := frame_setitem out "has_MOCA" has_moca in
  mret out.

(** ** Column aligner *)

Record CatalogEntry : Type := {
  form_field : string;
  variable_name : string;
  label : string;
  source_page : Z
}.

Global Instance CatalogEntry_eq_dec : EqDecision CatalogEntry.
Proof. solve_decision. Defined.

(** The catalog frame: its column labels and its records. *)
Record Catalog : Type := {
  catalog_columns : list string;
  catalog_rows : list CatalogEntry
}.

(** [catalog["variable_name"].tolist()]; [KeyError] when the frame has no
    such column. *)
Definition catalog_variable_names (catalog : Catalog) : result (list string) :=
  if bool_decide ("variable_name" ∈ catalog_columns catalog)
  then mret (variable_name <$> catalog_rows catalog)
  else Raise KeyError.

Definition select_dataset_columns (df : DataFrame) (catalog : Catalog)
  : result DataFrame :=
  names ← catalog_variable_names catalog;
  let vars_in_df := filter (λ v, v ∈ columns df) names in
  frame_getitem_list df vars_in_df.

(** ** Availability summarizer *)

(** Python floats are IEEE 754 binary64 numbers: 53 bits of precision,
    results rounded to the nearest number, ties to the even one. *)
Definition float : Type := SpecFloat.spec_float.

Definition prec : Z := 53.
Definition emax : Z := 1024.

(** An int as an unrounded operand. *)
Definition exact_int (z : Z) : float :=
  match z with
  | Z0 => SpecFloat.S754_zero false
  | Zpos p => SpecFloat.S754_finite false p 0
  | Zneg p => SpecFloat.S754_finite true p 0
  end.

(** [float(z)] *)
Definition float_of_int (z : Z) : float :=
  SpecFloat.binary_normalize prec emax z 0 false.

(** [a / b] on two ints, for [b] other than 0: the quotient of the two
    integers, rounded once. *)
Definition int_truediv (a b : Z) : float :=
  SpecFloat.SFdiv prec emax (exact_int a) (exact_int b).

(** [x * y] on two floats. *)
Definition float_mul (x y : float) : float := SpecFloat.SFmul prec emax x y.

Record SummaryRow : Type := {
  Column : string;
  Valid_Data_Count : Z;
  Percentage : float
}.

(** [df[col]] for a single label, used as a column: the one column that
    carries it; [KeyError] when none does; when several do, pandas hands
    back a frame and the [int(...)] of its sums raises [TypeError]. *)
Definition frame_getitem (df : DataFrame) (col : string) : result (list value) :=
  match with_label col (frame_columns df) with
  | [] => Raise KeyError
  | [c] => mret c.2
  | _ => Raise TypeError
  end.

(** [int(valid.sum())] *)
Definition count_true (valid : list bool) : Z :=
  Z.of_nat (length (filter (λ b, b = true) valid)).

(** [count / n * 100 if n else 0.0]: the division is rounded, and so is
    the product with [100], which is converted to a float first. *)
Definition percentage (count : Z) (n : nat) : float :=
  if bool_decide (n = 0) then SpecFloat.S754_zero false
  else float_mul (int_truediv count (Z.of_nat n)) (float_of_int 100).

(** The loop of [summarize_availability] over [df.columns]. *)
Fixpoint summary_rows (df : DataFrame) (exclude : list string)
    (missing_sentinel : Q) (cols : list string) : result (list SummaryRow) :=
  match cols with
  | [] => mret []
  | col :: cols' =>
      if bool_decide (col ∈ exclude)
      then summary_rows df exclude missing_sentinel cols'
      else
        s ← frame_getitem df col;
        let valid := _is_valid missing_sentinel s in
        let count := count_true valid in
        rows ← summary_rows df exclude missing_sentinel cols';
        mret ({| Column := col;
                 Valid_Data_Count := count;
                 Percentage := percentage count (len df) |} :: rows)
  end.

(** Reordering of rows by an indexer, [frame.take(indexer)]. *)
Definition take_rows {A : Type} (rows : list A) (indexer : list nat) : list A :=
  omap (λ i, rows !! i) indexer.

Section summarize.

(** [sort_values(by, ascending=False)] computes an indexer from the key
    column and reorders the frame by it.  The call leaves the sort kind at
    its default (quicksort), for which pandas promises no stability: all
    that is promised of the indexer is that it is a permutation of the
    positions along which the keys do not increase.  The indexer that
    pandas and numpy compute is [quicksort_nargsort_desc] below. *)
Variable nargsort_desc : list Z → list nat.

(** [pd.DataFrame(rows).sort_values(by, ascending=False)]; a frame built
    from no rows has no columns, so the key lookup raises [KeyError]. *)
Definition sort_values_desc {A : Type} (key : A → Z) (rows : list A)
  : result (list A) :=
  match rows with
  | [] => Raise KeyError
  | _ => mret (take_rows rows (nargsort_desc (key <$> rows)))
  end.

Definition summarize_availability (df : DataFrame) (exclude : list string)
    (missing_sentinel : Q) : result (list SummaryRow) :=
  rows ← summary_rows df exclude missing_sentinel (columns df);
  sort_values_desc Valid_Data_Count rows.

End summarize.

(** The key at a position of the key column. *)
Definition key_at (keys : list Z) (i : nat) : Z := default 0%Z (keys !! i).

(** What the default sort kind promises of an indexer. *)
Definition sorts_descending (nargsort_desc : list Z → list nat) : Prop :=
  ∀ keys : list Z,
    nargsort_desc keys ≡ₚ seq 0 (length keys) ∧
    Sorted (λ i j, key_at keys j ≤ key_at keys i)%Z (nargsort_desc keys).

(** What a stable sort kind promises on top: positions with equal keys stay
    in their original order. *)
Definition keeps_ties (nargsort_desc : list Z → list nat) : Prop :=
  ∀ (keys : list Z) (p q i j : nat),
    p < q →
    nargsort_desc keys !! p = Some i →
    nargsort_desc keys !! q = Some j →
    key_at keys i = key_at keys j →
    i < j.

(** An indexer that sorts in descending order and leaves equal keys in
    their original order. *)
Definition stable_nargsort_desc (keys : list Z) : list nat :=
  merge_sort
    (λ i j, (key_at keys j < key_at keys i)%Z ∨
            (key_at keys j = key_at keys i ∧ (i ≤ j)%nat))
    (seq 0 (length keys)).

(** *** The sort that runs

    [nargsort] of pandas hands the keys to [ndarray.argsort(kind)], which
    for the default kind and integer keys is the introsort of numpy
    ([aquicksort_], generic implementation): quicksort with a median of
    three pivot on ranges of more than 17 positions, insertion sort on
    shorter ones, and heapsort once the depth limit is used up.  [tosort]
    is the array of positions being sorted, and pointers into it are
    offsets. *)
Section npysort.

(** The keys, [v]. *)
Variable v : list Z.

(** [*p] *)
Definition deref (tosort : list nat) (p : Z) : nat :=
  default 0 (tosort !! Z.to_nat p).

(** [v[*p]] *)
Definition key_of (tosort : list nat) (p : Z) : Z := key_at v (deref tosort p).

(** [*p = i] *)
Definition store (tosort : list nat) (p : Z) (i : nat) : list nat :=
  <[Z.to_nat p := i]> tosort.

Definition INTP_SWAP (tosort : list nat) (p q : Z) : list nat :=
  store (store tosort p (deref tosort q)) q (deref tosort p).

(** Swap the positions at [p] and [q] when the key of the first is less
    than the key of the second. *)
Definition swap_if_less (tosort : list nat) (p q : Z) : list nat :=
  if bool_decide (key_of tosort p < key_of tosort q)%Z
  then INTP_SWAP tosort p q else tosort.

(** [do ++pi; while (less(v[*pi], vp))]: move right to the next key that
    is not less than the pivot. *)
Fixpoint scan_up (fuel : nat) (tosort : list nat) (vp : Z) (pi : Z)
  : option Z :=
  match fuel with
  | O => None
  | S fuel' =>
      let pi := (pi + 1)%Z in
      if bool_decide (key_of tosort pi < vp)%Z
      then scan_up fuel' tosort vp pi else Some pi
  end.

(** [do --pj; while (less(vp, v[*pj]))]: move left to the next key that
    the pivot is not less than. *)
Fixpoint scan_down (fuel : nat) (tosort : list nat) (vp : Z) (pj : Z)
  : option Z :=
  match fuel with
  | O => None
  | S fuel' =>
      let pj := (pj - 1)%Z in
      if bool_decide (vp < key_of tosort pj)%Z
      then scan_down fuel' tosort vp pj else Some pj
  end.

(** The [for (;;)] loop of the partition: both scans, then a swap unless
    the pointers have met. *)
Fixpoint partition_loop (fuel : nat) (tosort : list nat) (vp : Z) (pi pj : Z)
  : option (list nat * Z) :=
  match fuel with
  | O => None
  | S fuel' =>
      pi ← scan_up (length tosort) tosort vp pi;
      pj ← scan_down (length tosort) tosort vp pj;
      if bool_decide (pj ≤ pi)%Z then Some (tosort, pi)
      else partition_loop fuel' (INTP_SWAP tosort pi pj) vp pi pj
  end.

(** One partition of the range from [pl] to [pr]: the median of the first,
    middle and last key becomes the pivot and is parked at [pr - 1]; the
    result is the array and the final place [pi] of the pivot. *)
Definition partition_range (tosort : list nat) (pl pr : Z)
  : option (list nat * Z) :=
  let pm := (pl + Z.shiftr (pr - pl) 1)%Z in
  let tosort := swap_if_less tosort pm pl in
  let tosort := swap_if_less tosort pr pm in
  let tosort := swap_if_less tosort pm pl in
  let vp := key_of tosort pm in
  let pi := pl in
  let pj := (pr - 1)%Z in
  let tosort := INTP_SWAP tosort pm pj in
  '(tosort, pi) ← partition_loop (length tosort) tosort vp pi pj;
  let pk := (pr - 1)%Z in
  Some (INTP_SWAP tosort pi pk, pi).

(** [while (pj > pl && less(vp, v[*pk])) *pj-- = *pk--;] with [pk] one
    below [pj]; [fuel] is the number of positions down to [pl]. *)
Fixpoint shift_up (fuel : nat) (tosort : list nat) (pl : Z) (vp : Z) (pj : Z)
  : list nat * Z :=
  match fuel with
  | O => (tosort, pj)
  | S fuel' =>
      if bool_decide (pl < pj)%Z &&
         bool_decide (vp < key_of tosort (pj - 1))%Z
      then shift_up fuel' (store tosort pj (deref tosort (pj - 1)))
             pl vp (pj - 1)%Z
      else (tosort, pj)
  end.

(** The insertion sort of the range from [pl] to [pr]: [pi] runs from
    [pl + 1] to [pr]. *)
Definition insertion_sort (tosort : list nat) (pl pr : Z) : list nat :=
  foldl
    (λ tosort pi,
       let vi := deref tosort pi in
       let vp := key_at v vi in
       let '(tosort, pj) := shift_up (Z.to_nat (pi - pl)) tosort pl vp pi in
       store tosort pj vi)
    tosort (seqZ (pl + 1) (pr - pl)).

(** The inner loop of [aheapsort_], which sifts [tmp] down from [i]; the
    heap is [a[1]] to [a[n]], where [a] is one below the start of the
    range. *)
Fixpoint sift_down (fuel : nat) (tosort : list nat) (a n : Z) (tmp : nat)
    (i j : Z) : list nat :=
  match fuel with
  | O => store tosort (a + i) tmp
  | S fuel' =>
      if bool_decide (j ≤ n)%Z then
        let j :=
          if bool_decide (j < n)%Z &&
             bool_decide (key_of tosort (a + j)
                          < key_of tosort (a + (j + 1)))%Z
          then (j + 1)%Z else j in
        if bool_decide (key_at v tmp < key_of tosort (a + j))%Z
        then sift_down fuel' (store tosort (a + i) (deref tosort (a + j)))
               a n tmp j (j + j)%Z
        else store tosort (a + i) tmp
      else store tosort (a + i) tmp
  end.

(** [aheapsort_(vv, start, n)]: the heap is built for [l] from [n >> 1]
    down to 1, then the largest key is moved behind the heap [n - 1]
    times. *)
Definition aheapsort_ (tosort : list nat) (start n : Z) : list nat :=
  let a := (start - 1)%Z in
  let heap :=
    foldl
      (λ tosort l,
         sift_down (length tosort) tosort a n (deref tosort (a + l))
           l (Z.shiftl l 1))
      tosort (reverse (seqZ 1 (Z.shiftr n 1))) in
  foldl
    (λ tosort n,
       let tmp := deref tosort (a + n) in
       let tosort := store tosort (a + n) (deref tosort (a + 1)) in
       sift_down (length tosort) tosort a (n - 1) tmp 1 2)
    heap (reverse (seqZ 2 (n - 1))).

Definition SMALL_QUICKSORT : Z := 16.

(** [npy_get_msb]: the position of the highest bit. *)
Definition npy_get_msb (num : Z) : Z := Z.log2 num.

(** The [while (1)] loop of [aquicksort_].  [stack] holds the ranges put
    aside with the depth left for each; [outer] tells that the loop body
    is entered from its top, where alone the depth is tested. *)
Fixpoint aquicksort_loop (fuel : nat) (outer : bool) (tosort : list nat)
    (pl pr : Z) (cdepth : Z) (stack : list (Z * Z * Z))
  : option (list nat) :=
  match fuel with
  | O => None
  | S fuel' =>
      let stack_pop (tosort : list nat) :=
        match stack with
        | [] => Some tosort
        | (pl, pr, cdepth) :: stack =>
            aquicksort_loop fuel' true tosort pl pr cdepth stack
        end in
      if outer && bool_decide (cdepth < 0)%Z then
        stack_pop (aheapsort_ tosort pl (pr - pl + 1))
      else if bool_decide (SMALL_QUICKSORT < pr - pl)%Z then
        '(tosort, pi) ← partition_range tosort pl pr;
        let cdepth := (cdepth - 1)%Z in
        if bool_decide (pi - pl < pr - pi)%Z
        then aquicksort_loop fuel' false tosort pl (pi - 1)%Z cdepth
               ((pi + 1, pr, cdepth)%Z :: stack)
        else aquicksort_loop fuel' false tosort (pi + 1)%Z pr cdepth
               ((pl, pi - 1, cdepth)%Z :: stack)
      else
        stack_pop (insertion_sort tosort pl pr)
  end.

(** [aquicksort_(vv, tosort, num)]; every turn of the loop either places
    a pivot or finishes a range, so twice the length is fuel enough. *)
Definition aquicksort_ (tosort : list nat) : option (list nat) :=
  let num := Z.of_nat (length tosort) in
  aquicksort_loop (2 * length tosort + 1) true tosort 0 (num - 1)
    (npy_get_msb num * 2) [].

End npysort.

(** [a.argsort(kind="quicksort")]: the positions, sorted by their keys. *)
Definition argsort (a : list Z) : option (list nat) :=
  aquicksort_ a (seq 0 (length a)).

(** [nargsort(items, kind="quicksort", ascending, na_position="last")] of
    pandas, for integer keys (none of which is NaN): for a descending
    order the keys are reversed before the sort and the indexer after
    it. *)
Definition nargsort (items : list Z) (ascending : bool) : option (list nat) :=
  let idx := seq 0 (length items) in
  let non_nans := if ascending then items else reverse items in
  let non_nan_idx := if ascending then idx else reverse idx in
  sorter ← argsort non_nans;
  let indexer := omap (λ i, non_nan_idx !! i) sorter in
  Some (if ascending then indexer else reverse indexer).

(** The indexer of [sort_values(by, ascending=False)]. *)
Definition quicksort_nargsort_desc (keys : list Z) : list nat :=
  default [] (nargsort keys false).

(** The summary row that the loop of [summarize_availability] appends for
    a column of a frame of [n] records. *)
Definition summary_row (missing_sentinel : Q) (n : nat)
    (c : string * list value) : SummaryRow :=
  {| Column := c.1;
     Valid_Data_Count := count_true (_is_valid missing_sentinel c.2);
     Percentage := percentage (count_true (_is_valid missing_sentinel c.2)) n |}.

(** ** Text cells

    Strings are sequences of characters with code points below 256;
    [strip] and [lower] act on them as Python does on these code
    points. *)

(** [str.isspace] on one character: the ASCII white space and separators,
    the next-line control and the no-break space. *)
Definition py_isspace (a : ascii) : bool :=
  let n := nat_of_ascii a in
  (Nat.leb 9 n && Nat.leb n 13) || (Nat.leb 28 n && Nat.leb n 32) ||
  Nat.eqb n 133 || Nat.eqb n 160.

Fixpoint lstrip (s : string) : string :=
  match s with
  | EmptyString => EmptyString
  | String a s' => if py_isspace a then lstrip s' else s
  end.

Definition rstrip (s : string) : string :=
  String.rev (lstrip (String.rev s)).

(** [s.strip()] *)
Definition strip (s : string) : string := rstrip (lstrip s).

(** [str.lower] on one character: the capital letters are [A] to [Z] and,
    from 192 to 222, the accented ones, the multiplication sign at 215
    apart. *)
Definition lower_char (a : ascii) : ascii :=
  let n := nat_of_ascii a in
  if (Nat.leb 65 n && Nat.leb n 90) ||
     (Nat.leb 192 n && Nat.leb n 222 && negb (Nat.eqb n 215))
  then ascii_of_nat (n + 32) else a.

(** [s.lower()] *)
Fixpoint lower (s : string) : string :=
  match s with
  | EmptyString => EmptyString
  | String a s' => String (lower_char a) (lower s')
  end.

(** [tok in text] *)
Fixpoint is_substring (tok text : string) : bool :=
  String.prefix tok text ||
  match text with
  | EmptyString => false
  | String _ text' => is_substring tok text'
  end.

(** ** Table extractor *)

(** An extracted cell is a string or [None]. *)
Definition Cell : Type := option string.
Definition Row : Type := list Cell.
Definition Table : Type := list Row.

(** A page is known by what [page.extract_tables() or []] returns, a
    document by its pages. *)
Definition Page : Type := list Table.
Definition Document : Type := list Page.

(** [l[i]] with Python's negative indices; out of range raises
    [IndexError]. *)
Definition py_getitem {A : Type} (l : list A) (i : Z) : result A :=
  let n := Z.of_nat (length l) in
  let j := if bool_decide (i < 0)%Z then (i + n)%Z else i in
  if bool_decide (0 ≤ j)%Z
  then match l !! Z.to_nat j with
       | Some x => mret x
       | None => Raise IndexError
       end
  else Raise IndexError.

(** [range(start, stop)] *)
Definition py_range (start stop : Z) : list Z := seqZ start (stop - start).

Fixpoint extract_pdf_tables (pdf : Document) (pages : list Z)
  : result (list (list Row)) :=
  match pages with
  | [] => mret []
  | p :: pages' =>
      page ← py_getitem pdf p;
      let rows : list Row := concat (filter (λ tbl : Table, tbl ≠ []) page) in
      all_pages ← extract_pdf_tables pdf pages';
      mret (rows :: all_pages)
  end.

(** ** Catalog builder *)

(** Truthiness of an optional string. *)
Definition truthy (c : Cell) : bool :=
  match c with
  | Some s => bool_decide (s ≠ "")
  | None => false
  end.

(** [a or b] *)
Definition cell_or (a b : Cell) : Cell := if truthy a then a else b.

(** [isinstance(row[2], str) and row[2].strip().lower() == "variable name"] *)
Definition is_header_cell (c : Cell) : bool :=
  match c with
  | Some s => bool_decide (lower (strip s) = "variable name")
  | None => false
  end.

(** [row[2] and str(row[2]).strip()] *)
Definition has_variable_name (c : Cell) : bool :=
  match c with
  | Some s => truthy c && bool_decide (strip s ≠ "")
  | None => false
  end.

(** The inner loop of [_iter_variable_rows], over the rows of one page. *)
Fixpoint _iter_page_rows (page_rows : list Row) : list Row :=
  match page_rows with
  | [] => []
  | row :: page_rows' =>
      match row with
      | _ :: _ :: cell2 :: _ =>
          if is_header_cell cell2 then _iter_page_rows page_rows'
          else if has_variable_name cell2
               then row :: _iter_page_rows page_rows'
               else _iter_page_rows page_rows'
      | _ => _iter_page_rows page_rows'
      end
  end.

Fixpoint _iter_variable_rows (all_pages_rows : list (list Row)) : list Row :=
  match all_pages_rows with
  | [] => []
  | page_rows :: all_pages_rows' =>
      _iter_page_rows page_rows ++ _iter_variable_rows all_pages_rows'
  end.

(** [enumerate(xs, start=start)] *)
Fixpoint enumerate {A : Type} (start : Z) (xs : list A) : list (Z * A) :=
  match xs with
  | [] => []
  | x :: xs' => (start, x) :: enumerate (start + 1)%Z xs'
  end.

Definition default_forms_filter : list string := ["C1"; "C2"].

(** The body of the loop of [build_variable_catalog]: the record appended
    for one enumerated row, or nothing when the row is skipped. *)
Definition catalog_record (forms_filter : list string) (page_idx : Z)
    (row : Row) : result (option CatalogEntry) :=
  form_field ←
    (if bool_decide (1 < length row)
     then c0 ← py_getitem row 0;
          c1 ← (if truthy c0 then mret c0 else py_getitem row 1);
          mret (strip (default "" (cell_or c0 (cell_or c1 (Some "")))))
     else c0 ← py_getitem row 0;
          mret (default "" (cell_or c0 (Some ""))));
  if bool_decide (forms_filter ≠ []) &&
     negb (existsb (λ tok, is_substring tok form_field) forms_filter)
  then mret None
  else
    c2 ← py_getitem row 2;
    let variable_name := match c2 with Some s => strip s | None => "" end in
    label ←
      (if bool_decide (3 < length row)
       then c3 ← py_getitem row 3;
            mret (match c3 with Some s => strip s | None => "" end)
       else mret "");
    if bool_decide (variable_name ≠ "")
    then mret (Some {| form_field := form_field;
                       variable_name := variable_name;
                       label := label;
                       source_page := page_idx |})
    else mret None.

(** The loop of [build_variable_catalog], collecting [records]. *)
Fixpoint catalog_records (forms_filter : list string)
    (rows : list (Z * Row)) : result (list CatalogEntry) :=
  match rows with
  | [] => mret []
  | (page_idx, row) :: rows' =>
      r ← catalog_record forms_filter page_idx row;
      records ← catalog_records forms_filter rows';
      mret (option_list r ++ records)
  end.

(** [Series.duplicated(keep="first")]: a key is flagged when an earlier
    position holds the same key. *)
Fixpoint duplicated (seen : gset string) (keys : list string) : list bool :=
  match keys with
  | [] => []
  | k :: keys' => bool_decide (k ∈ seen) :: duplicated ({[k]} ∪ seen) keys'
  end.

(** Selection by a boolean mask, [frame[mask]]. *)
Fixpoint mask_select {A : Type} (l : list A) (mask : list bool) : list A :=
  match l, mask with
  | x :: l', b :: mask' =>
      if b then x :: mask_select l' mask' else mask_select l' mask'
  | _, _ => []
  end.

Definition catalog_fields : list string :=
  ["form_field"; "variable_name"; "label"; "source_page"].

(** [pd.DataFrame.from_records(records)]: the columns are the keys of the
    records, and a frame built from no record has no column. *)
Definition from_records (records : list CatalogEntry) : Catalog :=
  {| catalog_columns :=
       if bool_decide (records = []) then [] else catalog_fields;
     catalog_rows := records |}.

(** [frame.drop_duplicates("variable_name")]: a frame with an empty axis is
    returned as it is; otherwise the key column is looked up and the rows
    that [duplicated] does not flag are kept. *)
Definition drop_duplicates (frame : Catalog) : result Catalog :=
  if bool_decide (catalog_rows frame = [] ∨ catalog_columns frame = [])
  then mret frame
  else
    keys ← catalog_variable_names frame;
    mret {| catalog_columns := catalog_columns frame;
            catalog_rows :=
              mask_select (catalog_rows frame)
                (negb <$> duplicated ∅ keys) |}.

Definition build_variable_catalog (pdf : Document) (page_range : Z * Z)
    (forms_filter : list string) : result Catalog :=
  let '(start, end_) := page_range in
  let pages := py_range start (end_ + 1) in
  all_pages_rows ← extract_pdf_tables pdf pages;
  records ← catalog_records forms_filter
              (enumerate start (_iter_variable_rows all_pages_rows));
  drop_duplicates (from_records records).

(** ** Predicates used in the statements *)

(** What a flag column says: one boolean per record, true exactly when
    some column of the frame named by the group holds a valid value at that
    record. *)
Definition flags_of (df : DataFrame) (cols : list string)
    (missing_sentinel : Q) (flags : list value) : Prop :=
  length flags = index_len df ∧
  ∀ i, i < index_len df →
    ∃ b : bool, flags !! i = Some (VBool b) ∧
      (b = true ↔
       ∃ c, c ∈ frame_columns df ∧ c.1 ∈ cols ∧
            is_valid missing_sentinel (cell_at i c) = true).

(** What a summary row says of a column of a frame of [n] records. *)
Definition describes (missing_sentinel : Q) (n : nat)
    (c : string * list value) (r : SummaryRow) : Prop :=
  Column r = c.1 ∧
  Valid_Data_Count r =
    Z.of_nat (length (filter (λ v, is_valid missing_sentinel v = true) c.2)) ∧
  (0 ≤ Valid_Data_Count r ≤ Z.of_nat n)%Z ∧
  (n ≠ 0 →
   Percentage r =
   float_mul (int_truediv (Valid_Data_Count r) (Z.of_nat n))
     (float_of_int 100)) ∧
  (n = 0 → Percentage r = float_of_int 0) ∧
  (Valid_Data_Count r = 0%Z → Percentage r = float_of_int 0) ∧
  (n ≠ 0 → Valid_Data_Count r = Z.of_nat n →
   Percentage r = float_of_int 100).

(** The number that a float stands for; none for an infinity or a NaN. *)
Definition float_value (x : float) : option Q :=
  match x with
  | SpecFloat.S754_zero _ => Some 0%Q
  | SpecFloat.S754_finite s m e =>
      Some ((if s then -1 else 1) * inject_Z (Zpos m) * 2 ^ e)%Q
  | _ => None
  end.

(** Rows with equal counts come in the order of their columns in the
    table. *)
Definition ties_in_column_order (df : DataFrame) (summary : list SummaryRow)
  : Prop :=
  ∀ (p q : nat) (r1 r2 : SummaryRow),
    p < q →
    summary !! p = Some r1 →
    summary !! q = Some r2 →
    Valid_Data_Count r1 = Valid_Data_Count r2 →
    ∃ i j, i < j ∧
           columns df !! i = Some (Column r1) ∧
           columns df !! j = Some (Column r2).

(** The rows the catalog builder is to discard, in the words of the
    specification: a row with fewer than 3 cells, a row whose cell 2,
    trimmed and lowercased, is "variable name", and a row whose cell 2 is
    empty after trimming (or is no text at all). *)
Definition row_excluded (row : Row) : Prop :=
  length row < 3 ∨
  (∃ s, row !! 2 = Some (Some s) ∧ lower (strip s) = "variable name") ∨
  row !! 2 = Some None ∨
  (∃ s, row !! 2 = Some (Some s) ∧ strip s = "").

(** The records that [drop_duplicates] keeps. *)
Definition kept_records (records : list CatalogEntry) : list CatalogEntry :=
  mask_select records (negb <$> duplicated ∅ (variable_name <$> records)).

(** The test that [_iter_variable_rows] applies to a row. *)
Definition row_kept (row : Row) : bool :=
  match row with
  | _ :: _ :: cell2 :: _ => negb (is_header_cell cell2) && has_variable_name cell2
  | _ => false
  end.

(** ** Sample tables, catalogs and documents *)

(** Two records of the scores table: the first has only the sentinel and an
    absent value in the primary group, the second has a score. *)
Definition df_scores : DataFrame :=
  {| index_len := 2;
     frame_columns :=
       [("C1SCORE", [VNum (-4)%Q; VNum 24%Q]);
        ("C1MMSE", [VNa; VNa]);
        ("C1MOCA", [VNum (-4)%Q; VNum (-4)%Q])] |}.

(** A table that already carries a [has_MMSE] column, here with an absent
    value. *)
Definition df_retagged : DataFrame :=
  {| index_len := 1; frame_columns := [("has_MMSE", [VNa])] |}.

(** One complete record of 18 variables: every column has one valid
    value. *)
Definition df_complete : DataFrame :=
  {| index_len := 1;
     frame_columns :=
       (λ name, (name, [VNum 1%Q]))
         <$> ["V01"; "V02"; "V03"; "V04"; "V05"; "V06"; "V07"; "V08"; "V09";
             "V10"; "V11"; "V12"; "V13"; "V14"; "V15"; "V16"; "V17"; "V18"] |}.

(** A table of 100 records, 29 of which have a score. *)
Definition df_hundred : DataFrame :=
  {| index_len := 100;
     frame_columns :=
       [("C1SCORE",
         replicate 29 (VNum 24%Q) ++ replicate 71 (VNum (-4)%Q))] |}.

Definition entry (form variable text : string) (page : Z) : CatalogEntry :=
  {| form_field := form; variable_name := variable;
     label := text; source_page := page |}.

(** A catalog that lists [C1MOCA] before [C1SCORE] and names a variable,
    [C2TRAILA], that the scores table does not have. *)
Definition catalog_moca_first : Catalog :=
  from_records
    [entry "C2" "C1MOCA" "MoCA Total Score" 24;
     entry "C2" "C2TRAILA" "Trail Making A" 24;
     entry "C1" "C1SCORE" "MMSE Total Score" 23].

(** The summary of the scores table: one record has a valid [C1SCORE], none
    has a valid [C1MMSE] or [C1MOCA]. *)
Definition summary_scores : list SummaryRow :=
  summary_row default_sentinel 2 <$> frame_columns df_scores.

Definition header_row : Row :=
  [Some "Form"; Some "Item"; Some " Variable name "; Some "Description"].
Definition score_row : Row :=
  [Some "C1"; Some ""; Some "C1SCORE"; Some "MMSE Total Score"].
Definition mmse_row : Row :=
  [Some "C1"; None; Some " C1MMSE "; Some "MMSE administered"].
Definition moca_row : Row :=
  [None; Some "C2"; Some "C1MOCA"; Some "MoCA Total Score"].
Definition short_row : Row := [Some "C1"; Some "page"].
Definition blank_row : Row := [Some "C1"; Some ""; Some "   "; Some "notes"].

(** A document of 28 pages with one table on page 23 and one on page 24. *)
Definition pdf_uds : Document :=
  replicate 23 [] ++
  [[[header_row; score_row; short_row; mmse_row]];
   [[header_row; moca_row; blank_row; score_row]]] ++
  replicate 3 [].

Definition catalog_uds : Catalog :=
  from_records
    [entry "C1" "C1SCORE" "MMSE Total Score" 23;
     entry "C1" "C1MMSE" "MMSE administered" 24;
     entry "C2" "C1MOCA" "MoCA Total Score" 25].

(** ** Alignment of a dataset to the catalog *)

Section align.

Variable nargsort_desc : list Z → list nat.

(** [align_dataset_to_catalog]; an assessment group left at [None] is
    replaced by the empty list ([mmse_cols or []]). *)
Definition align_dataset_to_catalog (df : DataFrame) (catalog : Catalog)
    (mmse_cols moca_cols : option (list string)) (missing_sentinel : Q)
  : result (DataFrame * list SummaryRow) :=
  subset ← select_dataset_columns df catalog;
  tagged ← tag_assessments subset (default [] mmse_cols)
              (default [] moca_cols) missing_sentinel;
  summary ← summarize_availability nargsort_desc tagged
               ["has_MMSE"; "has_MOCA"] missing_sentinel;
  mret (tagged, summary).

End align.

(** ** The command line script *)

(** [v.split(",")] *)
Fixpoint split_comma (v : string) : list string :=
  match v with
  | EmptyString => [""]
  | String a v' =>
      if Ascii.eqb a "," then "" :: split_comma v'
      else match split_comma v' with
           | piece :: pieces => String a piece :: pieces
           | [] => [String a ""]
           end
  end.

(** The second loop of [_split_cols]: [uniq] collects the values not yet
    in [seen]. *)
Fixpoint uniq_loop (seen : gset string) (uniq : list string)
    (out : list string) : list string :=
  match out with
  | [] => uniq
  | c :: out' =>
      if bool_decide (c ∉ seen)
      then uniq_loop ({[c]} ∪ seen) (uniq ++ [c]) out'
      else uniq_loop seen uniq out'
  end.

(** The first loop of [_split_cols]: the non-empty pieces of every value. *)
Definition split_pieces (values : list string) : list string :=
  values ≫= λ v, filter (λ x, x ≠ "") (split_comma v).

(** [_split_cols] of [scripts/uds_extract.py]; the argument is [None] when
    the option was not given. *)
Definition _split_cols (values : option (list string)) : list string :=
  match values with
  | None => []
  | Some [] => []
  | Some values => uniq_loop ∅ [] (split_pieces values)
  end.

(** The three numbers that [main] writes to [stats.txt]: the rows of the
    cleaned table, the completely empty ones and the ones with some data. *)
Definition stats_counts (cleaned : DataFrame) : result (nat * Z * Z) :=
  empty_mask ← compute_empty_rows_mask cleaned default_exclude default_sentinel;
  mret (len cleaned, count_true empty_mask, count_true (negb <$> empty_mask)).

(** The form field that the loop of [build_variable_catalog] computes for a
    row of three cells or more. *)
Definition form_field_of (row : Row) : string :=
  match row with
  | c0 :: c1 :: _ => strip (default "" (cell_or c0 (cell_or c1 (Some ""))))
  | _ => ""
  end.

(** [tok] occurs in [text]. *)
Definition occurs_in (tok text : string) : Prop :=
  ∃ pre post : string, text = pre +:+ tok +:+ post.

(** The page that [pdf.pages[p]] designates, counting from the end for a
    negative [p]. *)
Definition page_position (pdf : Document) (p : Z) : nat :=
  Z.to_nat (if bool_decide (p < 0)%Z then p + Z.of_nat (length pdf) else p)%Z.

(** * Properties *)

(** ** The error monad *)

Lemma bind_Ok {A B : Type} (m : result A) (f : A → result B) (b : B) :
  m ≫= f = Ok b ↔ ∃ a, m = Ok a ∧ f a = Ok b.
Proof.
  destruct m as [a|e]; simpl; split.
  - intros Hf. by exists a.
  - by intros (a' & [= <-] & Hf).
  - intros Hf. discriminate Hf.
  - by intros (a' & [=] & _).
Qed.

Lemma mapM_Ok_fmap {A B : Type} (f : A → result B) (g : A → B) (l : list A) :
  (∀ x, x ∈ l → f x = Ok (g x)) → mapM f l = Ok (g <$> l).
Proof.
  induction l as [|x l IH]; intros Hf; [done|].
  simpl. rewrite (Hf x) by apply list_elem_of_here. simpl.
  rewrite IH; [done|]. intros y Hy. apply Hf. by apply list_elem_of_further.
Qed.

(** ** Validity of a cell *)

Lemma is_valid_false (missing_sentinel : Q) (v : value) :
  is_valid missing_sentinel v = false ↔
  notna v = false ∨ ne_sentinel missing_sentinel v = false.
Proof. unfold is_valid. apply andb_false_iff. Qed.

Lemma existsb_elem_of {A : Type} (f : A → bool) (l : list A) :
  existsb f l = true ↔ ∃ x, x ∈ l ∧ f x = true.
Proof.
  rewrite existsb_exists. by setoid_rewrite list_elem_of_In.
Qed.

(** ** Selection by labels *)

Lemma elem_of_with_label {A : Type} (label : string) (l : list (string * A)) c :
  c ∈ with_label label l ↔ c.1 = label ∧ c ∈ l.
Proof. unfold with_label. by rewrite list_elem_of_filter. Qed.

Lemma with_label_nil {A : Type} (label : string) (l : list (string * A)) :
  with_label label l = [] ↔ label ∉ l.*1.
Proof.
  split.
  - intros Hnil (c & -> & Hc)%list_elem_of_fmap.
    assert (c ∈ with_label c.1 l) as Hin by by apply elem_of_with_label.
    rewrite Hnil in Hin. by apply not_elem_of_nil in Hin.
  - intros Hnot. destruct (with_label label l) as [|c found] eqn:Hw; [done|].
    exfalso. apply Hnot.
    assert (c ∈ with_label label l) as [<- Hc]%elem_of_with_label
      by (rewrite Hw; apply list_elem_of_here).
    by apply list_elem_of_fmap_2.
Qed.

Lemma getitem_list_Ok {A : Type} (l : list (string * A)) (labels : list string) :
  (∀ label, label ∈ labels → label ∈ l.*1) →
  getitem_list l labels = Ok (labels ≫= λ label, with_label label l).
Proof.
  induction labels as [|label labels IH]; intros Hin; [done|].
  simpl. destruct (with_label label l) as [|c found] eqn:Hw.
  - apply with_label_nil in Hw. destruct Hw. apply Hin, list_elem_of_here.
  - rewrite IH; [done|]. intros ? ?. by apply Hin, list_elem_of_further.
Qed.

Lemma getitem_list_Raise {A : Type} (l : list (string * A))
    (labels : list string) (label : string) :
  label ∈ labels → label ∉ l.*1 → getitem_list l labels = Raise KeyError.
Proof.
  induction labels as [|label' labels IH]; intros Hin Hnot.
  - by apply not_elem_of_nil in Hin.
  - simpl. destruct (with_label label' l) as [|c found] eqn:Hw; [done|].
    apply elem_of_cons in Hin as [->|Hin].
    + apply with_label_nil in Hnot. rewrite Hnot in Hw. discriminate Hw.
    + by rewrite IH.
Qed.

Lemma elem_of_getitem_list {A : Type} (l : list (string * A))
    (labels : list string) c :
  c ∈ (labels ≫= λ label, with_label label l) ↔ c.1 ∈ labels ∧ c ∈ l.
Proof.
  rewrite list_elem_of_bind. split.
  - intros (label & [<- Hc]%elem_of_with_label & Hlabel). done.
  - intros [Hlabel Hc]. exists c.1. by rewrite elem_of_with_label.
Qed.

(** ** Rows of a frame *)

Lemma length_iterrows (df : DataFrame) : length (iterrows df) = index_len df.
Proof. unfold iterrows. by rewrite length_fmap, length_seq. Qed.

Lemma lookup_iterrows (df : DataFrame) (i : nat) (row : Series) :
  iterrows df !! i = Some row ↔ i < index_len df ∧ row = row_at df i.
Proof.
  unfold iterrows. rewrite list_lookup_fmap_Some. split.
  - intros (j & ? & [-> ?]%lookup_seq). done.
  - intros [? ->]. exists i. split; [done|]. by apply lookup_seq.
Qed.

Lemma row_at_labels (df : DataFrame) (i : nat) : (row_at df i).*1 = columns df.
Proof.
  unfold row_at, columns. rewrite <- list_fmap_compose. by apply list_fmap_ext.
Qed.

Lemma elem_of_row_at (df : DataFrame) (i : nat) (e : string * value) :
  e ∈ row_at df i ↔ ∃ c, c ∈ frame_columns df ∧ e = (c.1, cell_at i c).
Proof.
  unfold row_at. rewrite list_elem_of_fmap.
  split; intros (c & ? & ?); by exists c.
Qed.

(** ** Empty-row detector *)

(** The cells of record [i] that [_row_empty] looks at hold a valid value
    exactly when some non-excluded column does at that record. *)
Lemma row_has_valid (df : DataFrame) (labels : list string)
    (missing_sentinel : Q) (i : nat) :
  existsb (is_valid missing_sentinel)
    (labels ≫= λ label, with_label label (row_at df i)).*2 = true ↔
  ∃ c, c ∈ frame_columns df ∧ c.1 ∈ labels ∧
       is_valid missing_sentinel (cell_at i c) = true.
Proof.
  rewrite existsb_elem_of. split.
  - intros (v & (e & -> & He)%list_elem_of_fmap & Hv).
    apply elem_of_getitem_list in He as [Hlabel (c & Hc & ->)%elem_of_row_at].
    by exists c.
  - intros (c & Hc & Hlabel & Hv). exists (cell_at i c). split; [|done].
    apply list_elem_of_fmap. exists (c.1, cell_at i c). split; [done|].
    apply elem_of_getitem_list. split; [done|]. apply elem_of_row_at. by exists c.
Qed.

Lemma compute_empty_rows_mask_eq (df : DataFrame) (exclude : list string)
    (missing_sentinel : Q) :
  compute_empty_rows_mask df exclude missing_sentinel =
  Ok ((λ row : Series,
         negb (existsb (is_valid missing_sentinel)
                 (filter (λ c, c ∉ exclude) (columns df) ≫=
                    λ label, with_label label row).*2))
        <$> iterrows df).
Proof.
  unfold compute_empty_rows_mask. apply mapM_Ok_fmap.
  intros row (i & Hi)%list_elem_of_lookup_1.
  apply lookup_iterrows in Hi as [_ ->].
  unfold _row_empty. rewrite getitem_list_Ok; [done|].
  intros label [_ Hlabel]%list_elem_of_filter. by rewrite row_at_labels.
Qed.

(** C6. [compute_empty_rows_mask] always returns a mask, with one flag per
    record; the flag of a record is true exactly when every cell of the
    record in a non-excluded column is absent or equals the missing
    sentinel, so a record with a valid non-excluded value is flagged
    false. *)
Theorem compute_empty_rows_mask_spec (df : DataFrame) (exclude : list string)
    (missing_sentinel : Q) :
  ∃ mask : list bool,
    compute_empty_rows_mask df exclude missing_sentinel = Ok mask ∧
    length mask = len df ∧
    ∀ i, i < len df →
      ∃ flag, mask !! i = Some flag ∧
        (flag = true ↔
         ∀ c, c ∈ frame_columns df → c.1 ∉ exclude →
              notna (cell_at i c) = false ∨
              ne_sentinel missing_sentinel (cell_at i c) = false).
Proof.
  eexists. split; [apply compute_empty_rows_mask_eq|].
  split; [by rewrite length_fmap, length_iterrows|].
  intros i Hi. eexists. split.
  - rewrite list_lookup_fmap.
    assert (iterrows df !! i = Some (row_at df i)) as ->
      by by apply lookup_iterrows.
    done.
  - rewrite negb_true_iff, <- not_true_iff_false, row_has_valid. split.
    + intros Hnone c Hc Hex. apply is_valid_false, not_true_iff_false.
      intros Hv. apply Hnone. exists c. split; [done|]. split; [|done].
      apply list_elem_of_filter. split; [done|]. by apply list_elem_of_fmap_2.
    + intros Hall (c & Hc & [Hex _]%list_elem_of_filter & Hv).
      apply not_true_iff_false in Hv; [done|]. apply is_valid_false. by apply Hall.
Qed.

(** ** Assessment tagger *)

Lemma columns_frame_setitem (df : DataFrame) (label : string) (vals : list value) :
  columns (frame_setitem df label vals) =
  if bool_decide (label ∈ columns df) then columns df else columns df ++ [label].
Proof.
  unfold frame_setitem, columns. simpl. case_bool_decide.
  - rewrite <- list_fmap_compose. apply list_fmap_ext.
    intros i c _. simpl. by case_bool_decide.
  - by rewrite fmap_app.
Qed.

(** After [df[label] = vals], the columns labelled [label] hold [vals] and
    there is at least one. *)
Lemma frame_setitem_same (df : DataFrame) (label : string) (vals vals' : list value) :
  (label, vals') ∈ frame_columns (frame_setitem df label vals) ↔ vals' = vals.
Proof.
  unfold frame_setitem. simpl. case_bool_decide as Hin.
  - rewrite list_elem_of_fmap. split.
    + intros (c & Hc & _). case_bool_decide; [by simplify_eq|].
      destruct c. by simplify_eq/=.
    + intros ->. apply list_elem_of_fmap in Hin as (c & -> & Hc).
      exists c. split; [|done]. by rewrite bool_decide_eq_true_2.
  - rewrite elem_of_app, list_elem_of_singleton. split.
    + intros [Hc|[= ->]]; [|done]. destruct Hin.
      by apply (list_elem_of_fmap_2 fst) in Hc.
    + intros ->. by right.
Qed.

(** The other columns are left as they were. *)
Lemma frame_setitem_other (df : DataFrame) (label : string) (vals : list value)
    (c : string * list value) :
  c.1 ≠ label →
  c ∈ frame_columns (frame_setitem df label vals) ↔ c ∈ frame_columns df.
Proof.
  intros Hne. unfold frame_setitem. simpl. case_bool_decide as Hin.
  - rewrite list_elem_of_fmap. split.
    + intros (c' & -> & Hc'). case_bool_decide; [|done]. by destruct Hne.
    + intros Hc. exists c. by rewrite bool_decide_eq_false_2.
  - rewrite elem_of_app, list_elem_of_singleton. split; [|by left].
    intros [Hc| ->]; [done|]. by destruct Hne.
Qed.

Lemma assessment_flags_Ok (out : DataFrame) (cols : list string)
    (missing_sentinel : Q) :
  (∀ c, c ∈ cols → c ∈ columns out) →
  ∃ flags, assessment_flags out cols missing_sentinel = Ok flags ∧
           flags_of out cols missing_sentinel flags.
Proof.
  intros Hcols. unfold assessment_flags. case_bool_decide as Hnil.
  - subst cols. eexists. split; [done|]. split.
    + unfold broadcast. by rewrite length_replicate.
    + intros i Hi. exists false. split.
      * unfold broadcast. by apply lookup_replicate_2.
      * split; [done|]. intros (c & _ & Hc & _). by apply not_elem_of_nil in Hc.
  - unfold frame_getitem_list. rewrite getitem_list_Ok by done. simpl.
    eexists. split; [done|]. split.
    + by rewrite length_fmap, length_iterrows.
    + intros i Hi. eexists. split.
      * rewrite list_lookup_fmap.
        match goal with
        | |- context [iterrows ?sub !! i] =>
            assert (iterrows sub !! i = Some (row_at sub i)) as ->
              by by apply lookup_iterrows
        end.
        done.
      * unfold series_any, _is_valid. rewrite existsb_elem_of. split.
        -- intros (b & (v & -> & Hv)%list_elem_of_fmap & Hb).
           apply list_elem_of_fmap in Hv as (e & -> & He).
           apply elem_of_row_at in He as (c & Hc & ->). simpl in Hc.
           apply elem_of_getitem_list in Hc as [Hlabel Hc]. by exists c.
        -- intros (c & Hc & Hlabel & Hv). exists true. split; [|done].
           apply list_elem_of_fmap. exists (cell_at i c). split; [done|].
           apply list_elem_of_fmap. exists (c.1, cell_at i c). split; [done|].
           apply elem_of_row_at. exists c. split; [|done]. simpl.
           by apply elem_of_getitem_list.
Qed.

Lemma assessment_flags_Raise (out : DataFrame) (cols : list string)
    (missing_sentinel : Q) (c : string) :
  c ∈ cols → c ∉ columns out →
  assessment_flags out cols missing_sentinel = Raise KeyError.
Proof.
  intros Hc Hnot. unfold assessment_flags. case_bool_decide as Hnil.
  - subst cols. by apply not_elem_of_nil in Hc.
  - unfold frame_getitem_list. by rewrite (getitem_list_Raise _ _ c).
Qed.

Lemma assessment_flags_cases (out : DataFrame) (cols : list string)
    (missing_sentinel : Q) :
  (∃ flags, assessment_flags out cols missing_sentinel = Ok flags) ∨
  assessment_flags out cols missing_sentinel = Raise KeyError.
Proof.
  destruct (decide (Forall (λ c, c ∈ columns out) cols)) as [Hall|Hnot].
  - left. rewrite Forall_forall in Hall.
    destruct (assessment_flags_Ok out cols missing_sentinel) as (flags & ? & _).
    + intros c Hc. by apply Hall.
    + by exists flags.
  - right. apply not_Forall_Exists in Hnot; [|apply _].
    apply Exists_exists in Hnot as (c & Hc & Hnot).
    by apply (assessment_flags_Raise _ _ _ c).
Qed.

Lemma flags_of_setitem_other (df : DataFrame) (label : string)
    (vals : list value) (cols : list string) (missing_sentinel : Q)
    (flags : list value) :
  label ∉ cols →
  flags_of (frame_setitem df label vals) cols missing_sentinel flags →
  flags_of df cols missing_sentinel flags.
Proof.
  intros Hnot [Hlen Hflags]. split; [done|].
  intros i Hi. destruct (Hflags i Hi) as (b & Hb & Hiff).
  exists b. split; [done|]. rewrite Hiff.
  split; intros (c & Hc & Hlabel & Hv); exists c; (split; [|done]).
  - apply frame_setitem_other in Hc; [done|]. by intros <-.
  - apply frame_setitem_other; [|done]. by intros <-.
Qed.

Lemma flags_of_nil (df : DataFrame) (missing_sentinel : Q) (flags : list value) :
  flags_of df [] missing_sentinel flags →
  flags = replicate (index_len df) (VBool false).
Proof.
  intros [Hlen Hflags]. apply list_eq_same_length with (index_len df).
  - by rewrite length_replicate.
  - done.
  - intros i x y Hi Hx Hy. destruct (Hflags i Hi) as (b & Hb & Hiff).
    rewrite lookup_replicate_2 in Hy by done. simplify_eq.
    destruct b; [|done]. destruct Hiff as [Hex _].
    destruct Hex as (c & _ & Hc & _); [done|]. by apply not_elem_of_nil in Hc.
Qed.

(** C5 (as the code has it). When the names of both groups occur in the
    table, [tag_assessments] returns a table whose [has_MMSE] column holds,
    for each record, whether some column of the primary group has a valid
    value there, and whose [has_MOCA] column holds the same for the
    secondary group, read from the table in which [has_MMSE] has just been
    written; for a secondary group that does not name [has_MMSE] that is
    the input table.  An empty group gives a column of [False], one per
    record. *)
Theorem tag_assessments_flags (df : DataFrame) (mmse_cols moca_cols : list string)
    (missing_sentinel : Q) :
  (∀ c, c ∈ mmse_cols → c ∈ columns df) →
  (∀ c, c ∈ moca_cols → c ∈ columns df) →
  ∃ tagged has_mmse has_moca,
    tag_assessments df mmse_cols moca_cols missing_sentinel = Ok tagged ∧
    index_len tagged = index_len df ∧
    (∀ vals, ("has_MMSE", vals) ∈ frame_columns tagged ↔ vals = has_mmse) ∧
    (∀ vals, ("has_MOCA", vals) ∈ frame_columns tagged ↔ vals = has_moca) ∧
    flags_of df mmse_cols missing_sentinel has_mmse ∧
    flags_of (frame_setitem df "has_MMSE" has_mmse) moca_cols
      missing_sentinel has_moca ∧
    ("has_MMSE" ∉ moca_cols →
     flags_of df moca_cols missing_sentinel has_moca) ∧
    (mmse_cols = [] → has_mmse = replicate (len df) (VBool false)) ∧
    (moca_cols = [] → has_moca = replicate (len df) (VBool false)).
Proof.
  intros Hmmse Hmoca. unfold tag_assessments.
  destruct (assessment_flags_Ok df mmse_cols missing_sentinel Hmmse)
    as (has_mmse & -> & Hf1).
  simpl.
  destruct (assessment_flags_Ok (frame_setitem df "has_MMSE" has_mmse)
              moca_cols missing_sentinel) as (has_moca & -> & Hf2).
  { intros c Hc. rewrite columns_frame_setitem.
    case_bool_decide; [by apply Hmoca|].
    apply elem_of_app. left. by apply Hmoca. }
  simpl. exists (frame_setitem (frame_setitem df "has_MMSE" has_mmse)
                   "has_MOCA" has_moca), has_mmse, has_moca.
  split; [done|]. split; [done|]. split.
  { intros vals. rewrite (frame_setitem_other _ "has_MOCA") by done.
    apply frame_setitem_same. }
  split; [apply frame_setitem_same|]. split; [done|]. split; [done|].
  assert ("has_MMSE" ∉ moca_cols →
          flags_of df moca_cols missing_sentinel has_moca) as Hf3.
  { intros Hnot. by apply flags_of_setitem_other in Hf2. }
  split; [done|]. split.
  - intros ->. by apply flags_of_nil in Hf1.
  - intros ->. apply (flags_of_nil df missing_sentinel).
    apply Hf3, not_elem_of_nil.
Qed.

(** C9 (as the code has it). A primary group naming a column that the table
    lacks, or a secondary group naming a column other than [has_MMSE] that
    the table lacks, makes [tag_assessments] raise [KeyError]. *)
Theorem tag_assessments_missing_column (df : DataFrame)
    (mmse_cols moca_cols : list string) (missing_sentinel : Q) :
  (∃ c, c ∈ mmse_cols ∧ c ∉ columns df) ∨
  (∃ c, c ∈ moca_cols ∧ (c ∉ columns df) ∧ c ≠ "has_MMSE") →
  tag_assessments df mmse_cols moca_cols missing_sentinel = Raise KeyError.
Proof.
  unfold tag_assessments. intros [(c & Hc & Hnot)|(c & Hc & Hnot & Hne)].
  - by rewrite (assessment_flags_Raise _ _ _ c).
  - destruct (assessment_flags_cases df mmse_cols missing_sentinel)
      as [[has_mmse ->]| ->]; [|done].
    simpl. rewrite (assessment_flags_Raise _ _ _ c); [done..|].
    rewrite columns_frame_setitem. case_bool_decide; [done|].
    rewrite elem_of_app, list_elem_of_singleton. by intros [?|?].
Qed.

Example tag_assessments_scores :
  tag_assessments df_scores ["C1SCORE"; "C1MMSE"] ["C1MOCA"] default_sentinel =
  Ok {| index_len := 2;
        frame_columns :=
          [("C1SCORE", [VNum (-4)%Q; VNum 24%Q]);
           ("C1MMSE", [VNa; VNa]);
           ("C1MOCA", [VNum (-4)%Q; VNum (-4)%Q]);
           ("has_MMSE", [VBool false; VBool true]);
           ("has_MOCA", [VBool false; VBool false])] |}.
Proof. reflexivity. Qed.

Lemma tag_assessments_flags_witness :
  ∃ tagged has_mmse has_moca,
    tag_assessments df_scores ["C1SCORE"; "C1MMSE"] [] default_sentinel
      = Ok tagged ∧
    index_len tagged = index_len df_scores ∧
    (∀ vals, ("has_MMSE", vals) ∈ frame_columns tagged ↔ vals = has_mmse) ∧
    (∀ vals, ("has_MOCA", vals) ∈ frame_columns tagged ↔ vals = has_moca) ∧
    flags_of df_scores ["C1SCORE"; "C1MMSE"] default_sentinel has_mmse ∧
    flags_of (frame_setitem df_scores "has_MMSE" has_mmse) []
      default_sentinel has_moca ∧
    ("has_MMSE" ∉ [] →
     flags_of df_scores [] default_sentinel has_moca) ∧
    (["C1SCORE"; "C1MMSE"] = [] →
     has_mmse = replicate (len df_scores) (VBool false)) ∧
    (@nil string = [] → has_moca = replicate (len df_scores) (VBool false)).
Proof.
  apply (tag_assessments_flags df_scores ["C1SCORE"; "C1MMSE"] []
           default_sentinel).
  - intros c Hc. apply elem_of_cons in Hc as [->|Hc].
    + apply (bool_decide_unpack _). reflexivity.
    + apply list_elem_of_singleton in Hc as ->.
      apply (bool_decide_unpack _). reflexivity.
  - intros c Hc. by apply not_elem_of_nil in Hc.
Defined.

(** C5, as stated, fails for a secondary group that names [has_MMSE]: the
    name occurs in the table and the table holds no valid value in that
    column, yet [has_MOCA] comes out true, because the group is read after
    [has_MMSE] has been overwritten with the primary flag. *)
Lemma tag_assessments_secondary_reads_written_flag :
  (∀ c, c ∈ ["has_MMSE"] → c ∈ columns df_retagged) ∧
  tag_assessments df_retagged [] ["has_MMSE"] default_sentinel =
    Ok {| index_len := 1;
          frame_columns :=
            [("has_MMSE", [VBool false]); ("has_MOCA", [VBool true])] |} ∧
  ¬ ∃ c, c ∈ frame_columns df_retagged ∧ c.1 ∈ ["has_MMSE"] ∧
         is_valid default_sentinel (cell_at 0 c) = true.
Proof.
  split; [|split].
  - intros c ->%list_elem_of_singleton. apply list_elem_of_here.
  - reflexivity.
  - intros (c & ->%list_elem_of_singleton & _ & Hv). discriminate Hv.
Qed.

Lemma tag_assessments_missing_column_witness :
  tag_assessments df_scores ["C1SCORE"; "C1TOTAL"] [] default_sentinel
  = Raise KeyError.
Proof.
  apply tag_assessments_missing_column. left. exists "C1TOTAL". split.
  - apply (bool_decide_unpack _). reflexivity.
  - apply (bool_decide_unpack _). reflexivity.
Defined.

(** C9, as stated, fails for a secondary group that names [has_MMSE] on a
    table without that column: the group is non-empty and names a column
    the table lacks, and [tag_assessments] returns. *)
Lemma tag_assessments_absent_has_MMSE_returns :
  ["has_MMSE"] ≠ [] ∧
  "has_MMSE" ∈ ["has_MMSE"] ∧
  ("has_MMSE" ∉ columns df_scores) ∧
  tag_assessments df_scores [] ["has_MMSE"] default_sentinel =
    Ok {| index_len := 2;
          frame_columns :=
            [("C1SCORE", [VNum (-4)%Q; VNum 24%Q]);
             ("C1MMSE", [VNa; VNa]);
             ("C1MOCA", [VNum (-4)%Q; VNum (-4)%Q]);
             ("has_MMSE", [VBool false; VBool false]);
             ("has_MOCA", [VBool true; VBool true])] |}.
Proof.
  split; [done|]. split; [apply list_elem_of_here|]. split; [|reflexivity].
  apply (bool_decide_unpack _). reflexivity.
Qed.

(** ** Column aligner *)

Lemma with_label_NoDup {A : Type} (l : list (string * A)) (c : string * A) :
  NoDup l.*1 → c ∈ l → with_label c.1 l = [c].
Proof.
  unfold with_label. induction l as [|x l IH]; intros Hnd Hc.
  - by apply not_elem_of_nil in Hc.
  - rewrite fmap_cons in Hnd. apply NoDup_cons in Hnd as [Hx Hnd].
    rewrite filter_cons. apply elem_of_cons in Hc as [->|Hc].
    + rewrite decide_True by done. f_equal.
      by apply (with_label_nil x.1 l).
    + rewrite decide_False; [by apply IH|].
      intros Heq. apply Hx. rewrite Heq. by apply list_elem_of_fmap_2.
Qed.

Lemma getitem_list_labels {A : Type} (l : list (string * A))
    (labels : list string) :
  NoDup l.*1 → (∀ label, label ∈ labels → label ∈ l.*1) →
  (labels ≫= λ label, with_label label l).*1 = labels.
Proof.
  intros Hnd. induction labels as [|label labels IH]; intros Hin; [done|].
  assert (label ∈ l.*1) as (c & -> & Hc)%list_elem_of_fmap
    by apply Hin, list_elem_of_here.
  cbn [mbind list_bind]. rewrite fmap_app, with_label_NoDup by done.
  simpl. f_equal. apply IH. intros ? ?. by apply Hin, list_elem_of_further.
Qed.

(** C1 (as the code has it). On a table whose labels are distinct and
    with a catalog that has a [variable_name] column,
    [select_dataset_columns] does not raise; the columns it returns are
    exactly the table's columns whose label is a [variable_name] of the
    catalog, a catalog name that the table lacks is skipped, and the
    columns come in the order in which the catalog lists their names. *)
Theorem select_dataset_columns_spec (df : DataFrame) (catalog : Catalog) :
  NoDup (columns df) →
  "variable_name" ∈ catalog_columns catalog →
  ∃ subset,
    select_dataset_columns df catalog = Ok subset ∧
    index_len subset = index_len df ∧
    columns subset =
      filter (λ v, v ∈ columns df)
        (variable_name <$> catalog_rows catalog) ∧
    (∀ c, c ∈ frame_columns subset ↔
          c ∈ frame_columns df ∧
          c.1 ∈ variable_name <$> catalog_rows catalog).
Proof.
  intros Hnd Hcol.
  unfold select_dataset_columns, catalog_variable_names, frame_getitem_list.
  rewrite bool_decide_eq_true_2 by done. cbn [mbind result_bind mret result_ret].
  rewrite getitem_list_Ok by (by intros v [? _]%list_elem_of_filter).
  eexists. split; [done|]. split; [done|]. split.
  - unfold columns at 1. simpl. apply getitem_list_labels; [done|].
    by intros v [? _]%list_elem_of_filter.
  - intros c. simpl. rewrite elem_of_getitem_list, list_elem_of_filter.
    split; [tauto|]. intros [Hc Hname]. split; [|done]. split; [|done].
    by apply list_elem_of_fmap_2.
Qed.

Lemma select_dataset_columns_spec_witness :
  ∃ subset,
    select_dataset_columns df_scores catalog_moca_first = Ok subset ∧
    index_len subset = index_len df_scores ∧
    columns subset =
      filter (λ v, v ∈ columns df_scores)
        (variable_name <$> catalog_rows catalog_moca_first) ∧
    (∀ c, c ∈ frame_columns subset ↔
          c ∈ frame_columns df_scores ∧
          c.1 ∈ variable_name <$> catalog_rows catalog_moca_first).
Proof.
  apply select_dataset_columns_spec.
  - apply (bool_decide_unpack _). reflexivity.
  - apply (bool_decide_unpack _). reflexivity.
Defined.

(** C1, as stated, fails on the order: the returned columns follow the
    catalog, so they are not the table's columns in the table's order.
    It also fails on the catalog built from no record, which has no
    [variable_name] column to read. *)
Lemma select_dataset_columns_catalog_order :
  NoDup (columns df_scores) ∧
  (∃ subset,
     select_dataset_columns df_scores catalog_moca_first = Ok subset ∧
     columns subset = ["C1MOCA"; "C1SCORE"] ∧
     columns df_scores = ["C1SCORE"; "C1MMSE"; "C1MOCA"] ∧
     ¬ sublist (columns subset) (columns df_scores)) ∧
  select_dataset_columns df_scores (from_records []) = Raise KeyError.
Proof.
  split; [apply (bool_decide_unpack _); reflexivity|].
  split; [|reflexivity].
  eexists. split; [reflexivity|]. split; [reflexivity|].
  split; [reflexivity|]. intros Hsub.
  change (sublist ["C1MOCA"; "C1SCORE"] ["C1SCORE"; "C1MMSE"; "C1MOCA"])
    in Hsub.
  repeat match goal with
         | H : sublist _ (_ :: _) |- _ =>
             apply sublist_cons_r in H as [H|(? & [= <-] & H)]
         | H : sublist (_ :: _) [] |- _ => by apply sublist_nil_r in H
         end.
Qed.

(** ** Availability summarizer *)

Lemma frame_getitem_NoDup (df : DataFrame) (c : string * list value) :
  NoDup (columns df) → c ∈ frame_columns df → frame_getitem df c.1 = Ok c.2.
Proof.
  intros Hnd Hc. unfold frame_getitem. by rewrite with_label_NoDup.
Qed.

Lemma summary_rows_eq (df : DataFrame) (exclude : list string)
    (missing_sentinel : Q) (cs : list (string * list value)) :
  NoDup (columns df) →
  (∀ c, c ∈ cs → c ∈ frame_columns df) →
  summary_rows df exclude missing_sentinel cs.*1 =
  Ok (summary_row missing_sentinel (len df)
        <$> filter (λ c, c.1 ∉ exclude) cs).
Proof.
  intros Hnd. induction cs as [|c cs IH]; intros Hcs; [done|].
  rewrite fmap_cons, filter_cons. cbn [summary_rows].
  assert (∀ c', c' ∈ cs → c' ∈ frame_columns df) as Hcs'
    by (intros ? ?; by apply Hcs, list_elem_of_further).
  case_bool_decide as Hex.
  - rewrite decide_False by (by intros ?). by apply IH.
  - rewrite decide_True by done.
    rewrite frame_getitem_NoDup by (done || apply Hcs, list_elem_of_here).
    simpl. by rewrite IH.
Qed.

Lemma take_rows_seq {A : Type} (pre rows : list A) :
  take_rows (pre ++ rows) (seq (length pre) (length rows)) = rows.
Proof.
  unfold take_rows. revert pre. induction rows as [|x rows IH]; intros pre.
  - done.
  - cbn [length seq omap list_omap]. rewrite list_lookup_middle by done.
    f_equal. specialize (IH (pre ++ [x])).
    rewrite length_app, Nat.add_1_r in IH.
    by rewrite <- app_assoc in IH.
Qed.

Lemma take_rows_Permutation {A : Type} (rows : list A) (indexer : list nat) :
  indexer ≡ₚ seq 0 (length rows) → take_rows rows indexer ≡ₚ rows.
Proof.
  intros Hperm. unfold take_rows. rewrite Hperm.
  pose proof (take_rows_seq [] rows) as Hseq. unfold take_rows in Hseq.
  simpl in Hseq. by rewrite Hseq.
Qed.

Lemma key_at_fmap {A : Type} (key : A → Z) (rows : list A) (i : nat) (r : A) :
  rows !! i = Some r → key_at (key <$> rows) i = key r.
Proof. intros Hr. unfold key_at. by rewrite list_lookup_fmap, Hr. Qed.

Lemma take_rows_sorted {A : Type} (key : A → Z) (rows : list A)
    (indexer : list nat) :
  Sorted (λ i j, key_at (key <$> rows) j ≤ key_at (key <$> rows) i)%Z indexer →
  StronglySorted (λ r1 r2, key r2 ≤ key r1)%Z (take_rows rows indexer).
Proof.
  intros Hsorted. apply Sorted_StronglySorted in Hsorted.
  2: { intros i j k ? ?. lia. }
  unfold take_rows. induction Hsorted as [|i indexer Hsorted IH Hall].
  - constructor.
  - cbn [omap list_omap]. destruct (rows !! i) as [r|] eqn:Hr; [|done].
    constructor; [done|]. apply Forall_forall.
    intros r' (j & Hj & Hr')%list_elem_of_omap.
    rewrite Forall_forall in Hall. specialize (Hall j Hj).
    by rewrite (key_at_fmap _ _ _ _ Hr), (key_at_fmap _ _ _ _ Hr') in Hall.
Qed.

Lemma summarize_availability_eq (nargsort_desc : list Z → list nat)
    (df : DataFrame) (exclude : list string) (missing_sentinel : Q) :
  NoDup (columns df) →
  let rows := summary_row missing_sentinel (len df)
                <$> filter (λ c, c.1 ∉ exclude) (frame_columns df) in
  summarize_availability nargsort_desc df exclude missing_sentinel =
  match rows with
  | [] => Raise KeyError
  | _ => Ok (take_rows rows (nargsort_desc (Valid_Data_Count <$> rows)))
  end.
Proof.
  intros Hnd rows. unfold summarize_availability, columns.
  rewrite summary_rows_eq by done. simpl. fold rows. by destruct rows.
Qed.

(** With every column excluded there is no row to sort and the key lookup
    fails. *)
Lemma summarize_availability_all_excluded (nargsort_desc : list Z → list nat)
    (df : DataFrame) (exclude : list string) (missing_sentinel : Q) :
  NoDup (columns df) →
  (∀ c, c ∈ columns df → c ∈ exclude) →
  summarize_availability nargsort_desc df exclude missing_sentinel
  = Raise KeyError.
Proof.
  intros Hnd Hall. rewrite summarize_availability_eq by done.
  destruct (filter (λ c : string * list value, c.1 ∉ exclude)
              (frame_columns df)) as [|c cs] eqn:Hf; [done|].
  assert (c ∈ filter (λ c : string * list value, c.1 ∉ exclude)
                (frame_columns df)) as [Hnot Hc]%list_elem_of_filter
    by (rewrite Hf; apply list_elem_of_here).
  destruct Hnot. apply Hall. by apply list_elem_of_fmap_2.
Qed.

Lemma Sorted_weaken {A : Type} (R R' : relation A) (l : list A) :
  (∀ x y, R x y → R' x y) → Sorted R l → Sorted R' l.
Proof.
  intros HR. induction 1 as [|x l Hsorted IH Hhd]; constructor; [done|].
  destruct Hhd; constructor; auto.
Qed.

Lemma merge_sort_sorts_descending (R : list Z → relation nat)
    `{∀ keys i j, Decision (R keys i j)} :
  (∀ keys, Total (R keys)) →
  (∀ keys i j, R keys i j → (key_at keys j ≤ key_at keys i)%Z) →
  sorts_descending (λ keys, merge_sort (R keys) (seq 0 (length keys))).
Proof.
  intros Htotal Hkeys keys. split.
  - apply merge_sort_Permutation.
  - apply (Sorted_weaken (R keys)); [apply Hkeys|].
    by apply Sorted_merge_sort.
Qed.

Lemma stable_nargsort_desc_sorts : sorts_descending stable_nargsort_desc.
Proof.
  apply (merge_sort_sorts_descending
           (λ keys i j, (key_at keys j < key_at keys i)%Z ∨
                        (key_at keys j = key_at keys i ∧ (i ≤ j)%nat))).
  - intros keys i j. lia.
  - intros keys i j. lia.
Qed.

Lemma StronglySorted_lookup {A : Type} (R : relation A) (l : list A)
    (p q : nat) (x y : A) :
  StronglySorted R l → p < q → l !! p = Some x → l !! q = Some y → R x y.
Proof.
  intros Hsorted. revert p q.
  induction Hsorted as [|z l Hsorted IH Hall]; intros p q Hpq Hp Hq; [done|].
  destruct q as [|q]; [lia|]. simpl in Hq. destruct p as [|p].
  - simplify_eq/=. rewrite Forall_forall in Hall.
    by apply Hall, list_elem_of_lookup_2 with q.
  - simpl in Hp. apply (IH p q); [lia|done..].
Qed.

Lemma stable_nargsort_desc_keeps_ties : keeps_ties stable_nargsort_desc.
Proof.
  intros keys p q i j Hpq Hp Hq Hkey. unfold stable_nargsort_desc in Hp, Hq.
  set (R := λ i j : nat, (key_at keys j < key_at keys i)%Z ∨
                         (key_at keys j = key_at keys i ∧ (i ≤ j)%nat)) in *.
  assert (StronglySorted R (merge_sort R (seq 0 (length keys)))) as Hsorted.
  { apply StronglySorted_merge_sort.
    - intros x y z. unfold R. lia.
    - intros x y. unfold R. lia. }
  pose proof (StronglySorted_lookup _ _ _ _ _ _ Hsorted Hpq Hp Hq) as Hij.
  assert (i ≠ j) as Hne.
  { intros <-. assert (p = q); [|lia].
    eapply NoDup_lookup; [|done..].
    rewrite merge_sort_Permutation. apply NoDup_seq. }
  unfold R in Hij. lia.
Qed.

Lemma count_true_is_valid (missing_sentinel : Q) (vals : list value) :
  count_true (_is_valid missing_sentinel vals) =
  Z.of_nat (length (filter (λ v, is_valid missing_sentinel v = true) vals)).
Proof.
  unfold count_true, _is_valid. f_equal.
  induction vals as [|v vals IH]; [done|].
  rewrite fmap_cons, !filter_cons.
  destruct (is_valid missing_sentinel v); simpl; by rewrite IH.
Qed.

Lemma percentage_none_valid (n : nat) : percentage 0 n = float_of_int 0.
Proof.
  unfold percentage. case_bool_decide as Hn; [done|].
  destruct n as [|n]; [done|]. reflexivity.
Qed.

Lemma int_truediv_same (a : positive) :
  int_truediv (Zpos a) (Zpos a) = float_of_int 1.
Proof.
  unfold int_truediv, exact_int, SpecFloat.SFdiv.
  assert (SpecFloat.SFdiv_core_binary prec emax (Z.pos a) 0 (Z.pos a) 0
          = (2 ^ 53, -53, SpecFloat.loc_Exact)%Z) as ->; [|reflexivity].
  unfold SpecFloat.SFdiv_core_binary.
  rewrite !Z.add_0_r, !Z.sub_diag.
  change (Z.min (SpecFloat.fexp prec emax 0) 0) with (-53)%Z.
  change (0 - -53)%Z with 53%Z. cbv iota.
  rewrite Z.shiftl_mul_pow2 by lia.
  pose proof (Z.div_mul (2 ^ 53) (Z.pos a) ltac:(lia)) as Hdiv.
  pose proof (Z.mod_mul (2 ^ 53) (Z.pos a) ltac:(lia)) as Hmod.
  rewrite (Z.mul_comm (2 ^ 53)) in Hdiv, Hmod.
  unfold Z.div in Hdiv. unfold Z.modulo in Hmod.
  change IntDef.Z.div_eucl with Z.div_eucl.
  destruct (Z.div_eucl (Z.pos a * 2 ^ 53) (Z.pos a)) as [q r].
  simpl in Hdiv, Hmod. subst q r.
  unfold SpecFloat.new_location, SpecFloat.new_location_even,
    SpecFloat.new_location_odd.
  by destruct a.
Qed.

Lemma percentage_all_valid (n : nat) :
  n ≠ 0 → percentage (Z.of_nat n) n = float_of_int 100.
Proof.
  intros Hn. unfold percentage. rewrite bool_decide_eq_false_2 by done.
  destruct n as [|n]; [done|].
  change (Z.of_nat (S n)) with (Z.pos (Pos.of_succ_nat n)).
  rewrite int_truediv_same. reflexivity.
Qed.

Lemma summary_row_describes (missing_sentinel : Q) (n : nat)
    (c : string * list value) :
  length c.2 = n → describes missing_sentinel n c (summary_row missing_sentinel n c).
Proof.
  intros Hlen. unfold describes, summary_row. simpl.
  split; [done|]. split; [apply count_true_is_valid|].
  split; [|split; [|split; [|split]]].
  - rewrite count_true_is_valid.
    pose proof (length_filter (λ v, is_valid missing_sentinel v = true) c.2).
    lia.
  - intros Hn. unfold percentage. by rewrite bool_decide_eq_false_2.
  - intros ->. done.
  - intros ->. apply percentage_none_valid.
  - intros Hn ->. by apply percentage_all_valid.
Qed.

(** C4 (as the code has it). On a well-formed table with at least one
    non-excluded column, [summarize_availability] returns a summary whose
    rows are those of the non-excluded columns; the row of a column holds
    the number of its values that are neither absent nor equal to the
    missing sentinel, which is at most the number of records [n], and as
    percentage the float that [count / n * 100] gives, the quotient
    rounded first and the product after it, or the float 0 when [n] is
    0; the percentage is exactly 0 when no value is valid and exactly 100
    when all are. *)
Theorem summarize_availability_counts (nargsort_desc : list Z → list nat)
    (df : DataFrame) (exclude : list string) (missing_sentinel : Q) :
  sorts_descending nargsort_desc →
  wf_frame df →
  (∃ c, c ∈ columns df ∧ c ∉ exclude) →
  ∃ summary,
    summarize_availability nargsort_desc df exclude missing_sentinel
      = Ok summary ∧
    (∀ c, c ∈ frame_columns df → c.1 ∉ exclude →
          ∃ r, r ∈ summary ∧ describes missing_sentinel (len df) c r) ∧
    (∀ r, r ∈ summary →
          ∃ c, c ∈ frame_columns df ∧ (c.1 ∉ exclude) ∧
               describes missing_sentinel (len df) c r).
Proof.
  intros Hsort [Hlen Hnd] (name & Hname & Hex).
  rewrite summarize_availability_eq by done.
  set (rows := summary_row missing_sentinel (len df)
                 <$> filter (λ c, c.1 ∉ exclude) (frame_columns df)).
  assert (∀ r, r ∈ rows ↔
               ∃ c, c ∈ frame_columns df ∧ (c.1 ∉ exclude) ∧
                    r = summary_row missing_sentinel (len df) c) as Hrows.
  { intros r. unfold rows. rewrite list_elem_of_fmap. split.
    - intros (c & -> & [? ?]%list_elem_of_filter). by exists c.
    - intros (c & ? & ? & ->). exists c. by rewrite list_elem_of_filter. }
  assert (take_rows rows (nargsort_desc (Valid_Data_Count <$> rows)) ≡ₚ rows)
    as Hperm.
  { apply take_rows_Permutation. destruct (Hsort (Valid_Data_Count <$> rows))
      as [Hp _]. by rewrite length_fmap in Hp. }
  destruct rows as [|r0 rows'] eqn:Hr.
  - apply list_elem_of_fmap in Hname as (c & -> & Hc).
    assert (summary_row missing_sentinel (len df) c ∈ @nil SummaryRow) as Hin
      by (apply Hrows; by exists c).
    by apply not_elem_of_nil in Hin.
  - eexists. split; [done|]. rewrite Forall_forall in Hlen. split.
    + intros c Hc Hcex. exists (summary_row missing_sentinel (len df) c). split.
      * rewrite Hperm. apply Hrows. by exists c.
      * apply summary_row_describes. by apply Hlen.
    + intros r Hin. rewrite Hperm in Hin.
      apply Hrows in Hin as (c & Hc & Hcex & ->). exists c.
      split; [done|]. split; [done|]. apply summary_row_describes. by apply Hlen.
Qed.

Lemma take_rows_lookup {A : Type} (rows : list A) (indexer : list nat)
    (p : nat) (r : A) :
  (∀ i, i ∈ indexer → i < length rows) →
  take_rows rows indexer !! p = Some r →
  ∃ i, indexer !! p = Some i ∧ rows !! i = Some r.
Proof.
  unfold take_rows. revert p.
  induction indexer as [|i indexer IH]; intros p Hrange Hp; [done|].
  destruct (lookup_lt_is_Some_2 rows i) as [a Ha];
    [apply Hrange, list_elem_of_here|].
  cbn [omap list_omap] in Hp. rewrite Ha in Hp. destruct p as [|p].
  - exists i. by simplify_eq/=.
  - apply IH in Hp; [done|]. intros ? ?. by apply Hrange, list_elem_of_further.
Qed.

Lemma sublist_lookup_lt {A : Type} (l1 l2 : list A) (i j : nat) (a b : A) :
  sublist l1 l2 → i < j → l1 !! i = Some a → l1 !! j = Some b →
  ∃ i' j', i' < j' ∧ l2 !! i' = Some a ∧ l2 !! j' = Some b.
Proof.
  intros Hsub. revert i j.
  induction Hsub as [|x l1 l2 Hsub IH|x l1 l2 Hsub IH]; intros i j Hij Hi Hj.
  - done.
  - destruct j as [|j]; [lia|]. simpl in Hj. destruct i as [|i].
    + simplify_eq/=.
      assert (b ∈ l2) as (j' & Hj')%list_elem_of_lookup_1
        by (eapply sublist_subseteq; [done|]; by eapply list_elem_of_lookup_2).
      exists 0, (S j'). split; [lia|done].
    + simpl in Hi. destruct (IH i j) as (i' & j' & ? & ? & ?); [lia|done..|].
      exists (S i'), (S j'). split; [lia|done].
  - destruct (IH i j) as (i' & j' & ? & ? & ?); [done..|].
    exists (S i'), (S j'). split; [lia|done].
Qed.

(** C3 (as the code has it). The summary that [summarize_availability]
    returns is a rearrangement of the rows of the non-excluded columns in
    which no row has a smaller count than a later one.  The order among
    rows with equal counts is left to the sort: it is the column order
    when the sort keeps ties in place, which the default kind does not
    promise. *)
Theorem summarize_availability_sorted (nargsort_desc : list Z → list nat)
    (df : DataFrame) (exclude : list string) (missing_sentinel : Q)
    (summary : list SummaryRow) :
  sorts_descending nargsort_desc →
  NoDup (columns df) →
  summarize_availability nargsort_desc df exclude missing_sentinel
    = Ok summary →
  summary ≡ₚ summary_row missing_sentinel (len df)
               <$> filter (λ c, c.1 ∉ exclude) (frame_columns df) ∧
  StronglySorted (λ r1 r2, Valid_Data_Count r2 ≤ Valid_Data_Count r1)%Z
    summary ∧
  (keeps_ties nargsort_desc → ties_in_column_order df summary).
Proof.
  intros Hsort Hnd. rewrite summarize_availability_eq by done.
  set (cs := filter (λ c : string * list value, c.1 ∉ exclude)
               (frame_columns df)).
  set (rows := summary_row missing_sentinel (len df) <$> cs).
  set (keys := Valid_Data_Count <$> rows).
  intros Hsum.
  assert (summary = take_rows rows (nargsort_desc keys)) as ->
    by (destruct rows; by simplify_eq).
  clear Hsum. destruct (Hsort keys) as [Hperm Hsorted].
  assert (length keys = length rows) as Hlen
    by (unfold keys; by rewrite length_fmap).
  rewrite Hlen in Hperm. split; [by apply take_rows_Permutation|].
  split; [by apply take_rows_sorted|].
  intros Hties p q r1 r2 Hpq Hp Hq Hcount.
  assert (∀ i, i ∈ nargsort_desc keys → i < length rows) as Hrange.
  { intros i Hi. rewrite Hperm in Hi. apply elem_of_seq in Hi. lia. }
  apply take_rows_lookup in Hp as (i & Hi & Hr1); [|done].
  apply take_rows_lookup in Hq as (j & Hj & Hr2); [|done].
  assert (i < j) as Hij.
  { apply (Hties keys p q); [done..|]. unfold keys.
    by rewrite (key_at_fmap _ _ _ _ Hr1), (key_at_fmap _ _ _ _ Hr2). }
  unfold rows in Hr1, Hr2.
  apply list_lookup_fmap_Some in Hr1 as (c1 & -> & Hc1).
  apply list_lookup_fmap_Some in Hr2 as (c2 & -> & Hc2).
  destruct (sublist_lookup_lt cs (frame_columns df) i j c1 c2)
    as (i' & j' & Hlt & Hi' & Hj'); [apply sublist_filter|done..|].
  exists i', j'. split; [done|]. unfold columns.
  by rewrite !list_lookup_fmap, Hi', Hj'.
Qed.

Lemma wf_frame_df_scores : wf_frame df_scores.
Proof.
  split.
  - repeat constructor.
  - apply (bool_decide_unpack _). reflexivity.
Qed.

Lemma summarize_availability_counts_witness :
  ∃ summary,
    summarize_availability stable_nargsort_desc df_scores default_exclude
      default_sentinel = Ok summary ∧
    (∀ c, c ∈ frame_columns df_scores → c.1 ∉ default_exclude →
          ∃ r, r ∈ summary ∧ describes default_sentinel (len df_scores) c r) ∧
    (∀ r, r ∈ summary →
          ∃ c, c ∈ frame_columns df_scores ∧ (c.1 ∉ default_exclude) ∧
               describes default_sentinel (len df_scores) c r).
Proof.
  apply (summarize_availability_counts stable_nargsort_desc df_scores
           default_exclude default_sentinel).
  - apply stable_nargsort_desc_sorts.
  - apply wf_frame_df_scores.
  - exists "C1SCORE". split; apply (bool_decide_unpack _); reflexivity.
Defined.

Example summary_scores_counts :
  (λ r, (Column r, Valid_Data_Count r)) <$> summary_scores =
  [("C1SCORE", 1%Z); ("C1MMSE", 0%Z); ("C1MOCA", 0%Z)].
Proof. reflexivity. Qed.

Lemma summarize_availability_sorted_witness :
  summary_scores ≡ₚ
    summary_row default_sentinel (len df_scores)
      <$> filter (λ c, c.1 ∉ default_exclude) (frame_columns df_scores) ∧
  StronglySorted (λ r1 r2, Valid_Data_Count r2 ≤ Valid_Data_Count r1)%Z
    summary_scores ∧
  (keeps_ties stable_nargsort_desc →
   ties_in_column_order df_scores summary_scores).
Proof.
  apply (summarize_availability_sorted stable_nargsort_desc df_scores
           default_exclude default_sentinel summary_scores).
  - apply stable_nargsort_desc_sorts.
  - apply (bool_decide_unpack _). reflexivity.
  - vm_compute. reflexivity.
Defined.

(** On the scores table the counts are 1, 0 and 0: three keys are sorted
    by insertion, and the indexer leaves the two columns without valid
    value in their order. *)
Example nargsort_scores : nargsort [1; 0; 0]%Z false = Some [0; 1; 2].
Proof. reflexivity. Qed.

Example nargsort_mixed :
  nargsort [3; 1; 4; 1; 5; 9; 2; 6; 5; 3; 5; 8; 9; 7; 9; 3; 2; 3; 8; 4]%Z false
  = Some [14; 5; 12; 11; 18; 13; 7; 10; 4; 8; 19; 2; 9; 15; 17; 0;
          6; 16; 1; 3].
Proof. vm_compute. reflexivity. Qed.

(** 29 of 100 and 11 of 20 as the code computes them:
    28.999999999999996 and 55.00000000000001. *)
Example percentage_29_of_100 :
  percentage 29 100 = SpecFloat.S754_finite false 8162774324609023 (-48).
Proof. vm_compute. reflexivity. Qed.

Example percentage_11_of_20 :
  percentage 11 20 = SpecFloat.S754_finite false 7740561859543041 (-47).
Proof. vm_compute. reflexivity. Qed.

Example percentage_1_of_2 :
  percentage 1 2 = float_of_int 50.
Proof. vm_compute. reflexivity. Qed.

(** Dividing the two ints gives what dividing their floats gives, as long
    as both are below [2 ^ 53]. *)
Example int_truediv_29_100 :
  int_truediv 29 100 =
  SpecFloat.SFdiv prec emax (float_of_int 29) (float_of_int 100).
Proof. vm_compute. reflexivity. Qed.

(** Eighteen equal keys are partitioned once.  No key is less than
    another, so the median of three swaps nothing; the pivot, at position
    8, is parked at position 16; both scans stop at every step, which
    swaps positions 1 and 15, 2 and 14, up to 7 and 9; the pivot returns
    to position 8.  The two halves are sorted by insertion, which moves
    nothing. *)
Example argsort_equal_keys :
  argsort (replicate 18 1%Z) =
    Some [0; 15; 14; 13; 12; 11; 10; 9; 8; 7; 6; 5; 4; 3; 2; 1; 16; 17].
Proof. vm_compute. reflexivity. Qed.

(** C3, as stated, fails on the ties.  On one complete record of 18
    variables every count is 1; the indexer that pandas and numpy compute
    for these 18 equal keys is not the identity, and the summary lists
    [V17] before [V16] although [V16] is the earlier column. *)
Lemma summarize_availability_ties_reordered :
  wf_frame df_complete ∧
  nargsort (replicate 18 1%Z) false =
    Some [0; 1; 16; 15; 14; 13; 12; 11; 10; 9; 8; 7; 6; 5; 4; 3; 2; 17] ∧
  ∃ summary,
    summarize_availability quicksort_nargsort_desc df_complete
      default_exclude default_sentinel = Ok summary ∧
    (λ r, (Column r, Valid_Data_Count r)) <$> summary =
      [("V01", 1%Z); ("V02", 1%Z); ("V17", 1%Z); ("V16", 1%Z); ("V15", 1%Z);
       ("V14", 1%Z); ("V13", 1%Z); ("V12", 1%Z); ("V11", 1%Z); ("V10", 1%Z);
       ("V09", 1%Z); ("V08", 1%Z); ("V07", 1%Z); ("V06", 1%Z); ("V05", 1%Z);
       ("V04", 1%Z); ("V03", 1%Z); ("V18", 1%Z)] ∧
    columns df_complete =
      ["V01"; "V02"; "V03"; "V04"; "V05"; "V06"; "V07"; "V08"; "V09"; "V10";
       "V11"; "V12"; "V13"; "V14"; "V15"; "V16"; "V17"; "V18"] ∧
    ¬ ties_in_column_order df_complete summary.
Proof.
  split.
  { split; [by repeat constructor|]. apply (bool_decide_unpack _).
    vm_compute. reflexivity. }
  split; [vm_compute; reflexivity|].
  eexists. split; [vm_compute; reflexivity|].
  split; [reflexivity|]. split; [reflexivity|].
  intros Hties.
  destruct (Hties 2 3 _ _ ltac:(lia) eq_refl eq_refl eq_refl)
    as (i & j & Hij & Hi & Hj).
  assert (NoDup (columns df_complete)) as Hnd
    by (apply (bool_decide_unpack _); vm_compute; reflexivity).
  assert (i = 16) as -> by (by eapply NoDup_lookup).
  assert (j = 15) as -> by (by eapply NoDup_lookup).
  lia.
Qed.

Lemma wf_frame_df_hundred : wf_frame df_hundred.
Proof.
  split.
  - by repeat constructor.
  - apply (bool_decide_unpack _). reflexivity.
Qed.

(** C4, as stated, fails on the percentage.  With 29 valid values in 100
    records the code computes [29 / 100 * 100] in floats: the quotient is
    rounded, and the product is the float just below 29, not
    [100 * 29 / 100]. *)
Lemma summarize_availability_percentage_rounded :
  wf_frame df_hundred ∧
  len df_hundred = 100 ∧
  ∃ r q,
    summarize_availability quicksort_nargsort_desc df_hundred
      default_exclude default_sentinel = Ok [r] ∧
    Column r = "C1SCORE" ∧
    Valid_Data_Count r = 29%Z ∧
    float_value (Percentage r) = Some q ∧
    (q < 29)%Q ∧
    ¬ (q == 100 * 29 / 100)%Q.
Proof.
  split; [apply wf_frame_df_hundred|]. split; [reflexivity|].
  eexists _, _. split; [vm_compute; reflexivity|].
  split; [reflexivity|]. split; [reflexivity|].
  split; [vm_compute; reflexivity|].
  split; [reflexivity|]. intros Heq. vm_compute in Heq. discriminate Heq.
Qed.

(** ** Catalog builder: the rows that qualify *)

Lemma strip_nonempty (s : string) : strip s ≠ "" → s ≠ "".
Proof. intros Hs ->. by apply Hs. Qed.

Lemma row_kept_spec (row : Row) : row_kept row = true ↔ ¬ row_excluded row.
Proof.
  unfold row_excluded.
  destruct row as [|c0 [|c1 [|c2 row]]]; simpl;
    try (split; [done|]; intros Hex; destruct Hex; left; lia).
  rewrite andb_true_iff, negb_true_iff. destruct c2 as [s|]; simpl.
  - rewrite bool_decide_eq_false, andb_true_iff, !bool_decide_eq_true. split.
    + intros (Hhdr & _ & Hs) [Hlen|[(s' & [= <-] & ?)|[[=]|(s' & [= <-] & ?)]]];
        [lia|done..].
    + intros Hex. split; [|split].
      * intros Hhdr. apply Hex. right. left. by exists s.
      * apply strip_nonempty. intros Hs. apply Hex. do 3 right. by exists s.
      * intros Hs. apply Hex. do 3 right. by exists s.
  - split; [by intros [_ [=]]|]. intros Hex. destruct Hex. right. right. by left.
Qed.

Lemma _iter_page_rows_filter (page_rows : list Row) :
  _iter_page_rows page_rows = filter (λ row, row_kept row = true) page_rows.
Proof.
  induction page_rows as [|row page_rows IH]; [done|].
  rewrite filter_cons. cbn [_iter_page_rows]. rewrite IH. unfold row_kept.
  destruct row as [|c0 [|c1 [|c2 row]]]; try (by rewrite decide_False).
  destruct (is_header_cell c2), (has_variable_name c2); simpl;
    try done; by case_decide.
Qed.

Lemma _iter_variable_rows_filter (all_pages_rows : list (list Row)) :
  _iter_variable_rows all_pages_rows =
  filter (λ row, row_kept row = true) (concat all_pages_rows).
Proof.
  induction all_pages_rows as [|page_rows all_pages_rows IH]; [done|].
  cbn [_iter_variable_rows concat].
  by rewrite filter_app, IH, _iter_page_rows_filter.
Qed.

Lemma elem_of_iter_variable_rows (all_pages_rows : list (list Row)) (row : Row) :
  row ∈ _iter_variable_rows all_pages_rows ↔
  row ∈ concat all_pages_rows ∧ ¬ row_excluded row.
Proof.
  rewrite _iter_variable_rows_filter, list_elem_of_filter, row_kept_spec. tauto.
Qed.

Lemma py_getitem_Ok {A : Type} (l : list A) (i : nat) (x : A) :
  py_getitem l (Z.of_nat i) = Ok x ↔ l !! i = Some x.
Proof.
  unfold py_getitem. cbv zeta.
  rewrite (bool_decide_eq_false_2 (Z.of_nat i < 0)%Z) by lia.
  rewrite bool_decide_eq_true_2 by lia. rewrite Nat2Z.id.
  destruct (l !! i); simpl; split; intros Heq; by inversion Heq.
Qed.

Lemma enumerate_lookup {A : Type} (start : Z) (xs : list A) (idx : Z) (x : A) :
  (idx, x) ∈ enumerate start xs ↔
  ∃ k : nat, xs !! k = Some x ∧ idx = (start + Z.of_nat k)%Z.
Proof.
  revert start. induction xs as [|y xs IH]; intros start.
  - simpl. split; [by intros ?%not_elem_of_nil|by intros (k & ? & _)].
  - cbn [enumerate]. rewrite elem_of_cons, IH. split.
    + intros [[= -> ->]|(k & Hk & ->)].
      * exists 0. split; [done|lia].
      * exists (S k). split; [done|lia].
    + intros ([|k] & Hk & ->).
      * left. simplify_eq/=. f_equal. lia.
      * right. exists k. split; [done|lia].
Qed.

(** What a record appended by the loop of [build_variable_catalog] holds:
    the counter of the enumeration as [source_page] and the trimmed cell 2
    as [variable_name]. *)
Lemma catalog_record_Some (forms_filter : list string) (page_idx : Z)
    (row : Row) (e : CatalogEntry) :
  catalog_record forms_filter page_idx row = Ok (Some e) →
  source_page e = page_idx ∧
  ∃ s, row !! 2 = Some (Some s) ∧ variable_name e = strip s ∧ strip s ≠ "".
Proof.
  unfold catalog_record. intros Hrec.
  apply bind_Ok in Hrec as (ff & _ & Hrec).
  destruct (_ && _); [discriminate Hrec|].
  apply bind_Ok in Hrec as (c2 & Hc2 & Hrec).
  apply (py_getitem_Ok row 2) in Hc2.
  apply bind_Ok in Hrec as (text & _ & Hrec).
  case_bool_decide as Hname; [|discriminate Hrec].
  injection Hrec as <-. simpl. split; [done|].
  destruct c2 as [s|]; [|done]. by exists s.
Qed.

Lemma catalog_records_elem (forms_filter : list string)
    (rows : list (Z * Row)) (records : list CatalogEntry) (e : CatalogEntry) :
  catalog_records forms_filter rows = Ok records →
  e ∈ records →
  ∃ page_idx row, (page_idx, row) ∈ rows ∧
                  catalog_record forms_filter page_idx row = Ok (Some e).
Proof.
  revert records. induction rows as [|[page_idx row] rows IH]; intros records.
  - intros [= <-] Hin. by apply not_elem_of_nil in Hin.
  - cbn [catalog_records]. intros Hrec Hin.
    apply bind_Ok in Hrec as (r & Hr & Hrec).
    apply bind_Ok in Hrec as (records' & Hrecords' & [= <-]).
    apply elem_of_app in Hin as [Hin|Hin].
    + destruct r as [e'|]; [|by apply not_elem_of_nil in Hin].
      apply list_elem_of_singleton in Hin as ->.
      exists page_idx, row. split; [apply list_elem_of_here|done].
    + destruct (IH records' Hrecords' Hin) as (page_idx' & row' & ? & ?).
      exists page_idx', row'. split; [by apply list_elem_of_further|done].
Qed.

Lemma mask_select_sublist {A : Type} (l : list A) (mask : list bool) :
  sublist (mask_select l mask) l.
Proof.
  revert mask. induction l as [|x l IH]; intros [|[] mask]; simpl;
    try constructor; auto using sublist_nil_l.
Qed.

Lemma kept_records_sublist (records : list CatalogEntry) :
  sublist (kept_records records) records.
Proof. apply mask_select_sublist. Qed.

Lemma drop_duplicates_from_records (records : list CatalogEntry) :
  drop_duplicates (from_records records) =
  Ok {| catalog_columns := catalog_columns (from_records records);
        catalog_rows := kept_records records |}.
Proof.
  unfold drop_duplicates, from_records, catalog_variable_names. simpl.
  destruct records as [|r records]; [done|].
  rewrite (bool_decide_eq_false_2 (r :: records = [])) by done.
  rewrite bool_decide_eq_false_2 by (by intros [?|?]).
  reflexivity.
Qed.

(** The steps of [build_variable_catalog] that a returned catalog went
    through. *)
Lemma build_variable_catalog_Ok (pdf : Document) (start end_ : Z)
    (forms_filter : list string) (catalog : Catalog) :
  build_variable_catalog pdf (start, end_) forms_filter = Ok catalog ↔
  ∃ all_pages_rows records,
    extract_pdf_tables pdf (py_range start (end_ + 1)) = Ok all_pages_rows ∧
    catalog_records forms_filter
      (enumerate start (_iter_variable_rows all_pages_rows)) = Ok records ∧
    catalog_columns catalog = catalog_columns (from_records records) ∧
    catalog_rows catalog = kept_records records.
Proof.
  unfold build_variable_catalog. rewrite bind_Ok. split.
  - intros (all_pages_rows & Hext & (records & Hrec & Hdrop)%bind_Ok).
    rewrite drop_duplicates_from_records in Hdrop. injection Hdrop as <-.
    by exists all_pages_rows, records.
  - intros (all_pages_rows & records & Hext & Hrec & Hcols & Hrows).
    exists all_pages_rows. split; [done|]. apply bind_Ok. exists records.
    split; [done|]. rewrite drop_duplicates_from_records.
    destruct catalog. simpl in *. by subst.
Qed.

(** C7. No row with fewer than 3 cells, no header row and no row whose
    cell 2 is empty after trimming is among the rows that
    [_iter_variable_rows] yields, and every entry of a catalog that
    [build_variable_catalog] returns was built from an extracted row that
    is none of these, its [variable_name] being the trimmed cell 2. *)
Theorem build_variable_catalog_excludes (pdf : Document) (start end_ : Z)
    (forms_filter : list string) (catalog : Catalog) :
  build_variable_catalog pdf (start, end_) forms_filter = Ok catalog →
  ∃ all_pages_rows,
    extract_pdf_tables pdf (py_range start (end_ + 1)) = Ok all_pages_rows ∧
    (∀ row, row ∈ _iter_variable_rows all_pages_rows ↔
            row ∈ concat all_pages_rows ∧ ¬ row_excluded row) ∧
    (∀ e, e ∈ catalog_rows catalog →
          ∃ row s, row ∈ concat all_pages_rows ∧
                   ¬ row_excluded row ∧
                   row !! 2 = Some (Some s) ∧
                   variable_name e = strip s).
Proof.
  intros (all_pages_rows & records & Hext & Hrec & _ & ->)
    %build_variable_catalog_Ok.
  exists all_pages_rows. split; [done|].
  split; [apply elem_of_iter_variable_rows|].
  intros e He. apply (sublist_subseteq _ _ (kept_records_sublist records)) in He.
  destruct (catalog_records_elem _ _ _ _ Hrec He) as (page_idx & row & Hin & Hrow).
  apply enumerate_lookup in Hin as (k & Hk%list_elem_of_lookup_2 & _).
  apply elem_of_iter_variable_rows in Hk as [Hk Hex].
  apply catalog_record_Some in Hrow as (_ & s & Hs & Hname & _).
  by exists row, s.
Qed.

(** ** Catalog builder: de-duplication *)

Lemma drop_duplicates_from (seen : gset string) (records : list CatalogEntry) :
  let kept := mask_select records
                (negb <$> duplicated seen (variable_name <$> records)) in
  (∀ e, e ∈ kept → variable_name e ∉ seen) ∧
  NoDup (variable_name <$> kept) ∧
  (∀ e, e ∈ kept →
        ∃ l1 l2, records = l1 ++ e :: l2 ∧
                 variable_name e ∉ variable_name <$> l1) ∧
  (∀ r, r ∈ records →
        variable_name r ∈ seen ∨ variable_name r ∈ variable_name <$> kept).
Proof.
  revert seen. induction records as [|r records IH]; intros seen.
  - simpl. split; [by intros ? ?%not_elem_of_nil|]. split; [constructor|].
    split; by intros ? ?%not_elem_of_nil.
  - destruct (IH ({[variable_name r]} ∪ seen)) as (Hseen & Hnd & Hfirst & Hall).
    clear IH. cbn [fmap list_fmap duplicated mask_select].
    fold (@fmap list _ _ _ variable_name records).
    fold (@fmap list _ _ _ negb
            (duplicated ({[variable_name r]} ∪ seen) (variable_name <$> records))).
    set (kept' := mask_select records _) in *.
    assert (∀ e, e ∈ kept' →
                 ∃ l1 l2, r :: records = l1 ++ e :: l2 ∧
                          variable_name e ∉ variable_name <$> l1) as Hfirst'.
    { intros e He. destruct (Hfirst e He) as (l1 & l2 & -> & Hl1).
      exists (r :: l1), l2. split; [done|].
      rewrite fmap_cons, not_elem_of_cons. split; [|done].
      specialize (Hseen e He). set_solver. }
    case_bool_decide as Hr; simpl.
    + split; [intros e He; specialize (Hseen e He); set_solver|].
      split; [done|]. split; [done|].
      intros r' [->|Hr']%elem_of_cons; [by left|].
      destruct (Hall r' Hr') as [Hin|Hin]; [|by right]. left.
      by apply elem_of_union in Hin as [->%elem_of_singleton|Hin].
    + split.
      { intros e [->|He]%elem_of_cons; [done|].
        specialize (Hseen e He). set_solver. }
      split.
      { apply NoDup_cons. split; [|done].
        intros (e & Heq & He)%list_elem_of_fmap.
        specialize (Hseen e He). set_solver. }
      split.
      { intros e [->|He]%elem_of_cons; [|by apply Hfirst'].
        exists [], records. split; [done|]. apply not_elem_of_nil. }
      intros r' [->|Hr']%elem_of_cons.
      { right. apply list_elem_of_here. }
      destruct (Hall r' Hr') as [Hin|Hin].
      * apply elem_of_union in Hin as [->%elem_of_singleton|Hin]; [|by left].
        right. apply list_elem_of_here.
      * right. by apply list_elem_of_further.
Qed.

(** C8. A catalog returned by [build_variable_catalog] holds no two entries
    with the same [variable_name]. *)
Theorem build_variable_catalog_unique (pdf : Document) (start end_ : Z)
    (forms_filter : list string) (catalog : Catalog) :
  build_variable_catalog pdf (start, end_) forms_filter = Ok catalog →
  NoDup (variable_name <$> catalog_rows catalog).
Proof.
  intros (all_pages_rows & records & _ & _ & _ & ->)%build_variable_catalog_Ok.
  apply (drop_duplicates_from ∅ records).
Qed.

(** C10. The catalog is what remains of the records collected in page,
    then row, order when every record whose [variable_name] occurred
    earlier is dropped: the remaining entries keep the order of the
    records, each of them is the first record of its name, and every name
    of a record remains. *)
Theorem build_variable_catalog_first_seen (pdf : Document) (start end_ : Z)
    (forms_filter : list string) (catalog : Catalog) :
  build_variable_catalog pdf (start, end_) forms_filter = Ok catalog →
  ∃ all_pages_rows records,
    extract_pdf_tables pdf (py_range start (end_ + 1)) = Ok all_pages_rows ∧
    catalog_records forms_filter
      (enumerate start (_iter_variable_rows all_pages_rows)) = Ok records ∧
    sublist (catalog_rows catalog) records ∧
    NoDup (variable_name <$> catalog_rows catalog) ∧
    (∀ e, e ∈ catalog_rows catalog →
          ∃ l1 l2, records = l1 ++ e :: l2 ∧
                   variable_name e ∉ variable_name <$> l1) ∧
    (∀ r, r ∈ records →
          variable_name r ∈ variable_name <$> catalog_rows catalog).
Proof.
  intros (all_pages_rows & records & Hext & Hrec & _ & ->)
    %build_variable_catalog_Ok.
  exists all_pages_rows, records. split; [done|]. split; [done|].
  split; [apply kept_records_sublist|].
  destruct (drop_duplicates_from ∅ records) as (_ & Hnd & Hfirst & Hall).
  split; [done|]. split; [done|].
  intros r Hr. destruct (Hall r Hr) as [Hin|Hin]; [|done].
  by apply not_elem_of_empty in Hin.
Qed.

(** ** Catalog builder: when it returns *)

Lemma py_getitem_lt {A : Type} (l : list A) (i : nat) :
  i < length l → ∃ x, py_getitem l (Z.of_nat i) = Ok x.
Proof.
  intros [x Hx]%lookup_lt_is_Some_2. exists x. by apply py_getitem_Ok.
Qed.

Lemma catalog_record_total (forms_filter : list string) (page_idx : Z)
    (row : Row) :
  (3 ≤ length row)%nat → ∃ r, catalog_record forms_filter page_idx row = Ok r.
Proof.
  intros Hlen. unfold catalog_record.
  destruct (py_getitem_lt row 0) as [c0 Hc0]; [lia|].
  destruct (py_getitem_lt row 1) as [c1 Hc1]; [lia|].
  destruct (py_getitem_lt row 2) as [c2 Hc2]; [lia|].
  change (Z.of_nat 0) with 0%Z in Hc0. change (Z.of_nat 1) with 1%Z in Hc1.
  change (Z.of_nat 2) with 2%Z in Hc2.
  rewrite (bool_decide_eq_true_2 (1 < length row)) by lia.
  rewrite Hc0. cbn [mbind result_bind].
  assert (∃ c1', (if truthy c0 then mret c0 else py_getitem row 1) = Ok c1')
    as [c1' ->] by (destruct (truthy c0); eauto).
  cbn [mbind result_bind mret result_ret].
  destruct (_ && _); [eauto|]. rewrite Hc2. cbn [mbind result_bind].
  destruct (decide (3 < length row)) as [H3|H3].
  - rewrite (bool_decide_eq_true_2 (3 < length row)) by done.
    destruct (py_getitem_lt row 3) as [c3 Hc3]; [lia|].
    change (Z.of_nat 3) with 3%Z in Hc3. rewrite Hc3.
    cbn [mbind result_bind mret result_ret]. case_bool_decide; eauto.
  - rewrite (bool_decide_eq_false_2 (3 < length row)) by done.
    cbn [mbind result_bind mret result_ret]. case_bool_decide; eauto.
Qed.

Lemma catalog_records_total (forms_filter : list string) (rows : list (Z * Row)) :
  (∀ page_idx row, (page_idx, row) ∈ rows → (3 ≤ length row)%nat) →
  ∃ records, catalog_records forms_filter rows = Ok records.
Proof.
  induction rows as [|[page_idx row] rows IH]; intros Hrows; [by eexists|].
  cbn [catalog_records].
  destruct (catalog_record_total forms_filter page_idx row) as [r ->];
    [by eapply Hrows, list_elem_of_here|].
  destruct IH as [records ->];
    [intros ? ? ?; by eapply Hrows, list_elem_of_further|].
  by eexists.
Qed.

Lemma extract_pdf_tables_total (pdf : Document) (pages : list Z) :
  (∀ p, p ∈ pages → 0 ≤ p < Z.of_nat (length pdf))%Z →
  ∃ all_pages_rows, extract_pdf_tables pdf pages = Ok all_pages_rows.
Proof.
  induction pages as [|p pages IH]; intros Hpages; [by eexists|].
  cbn [extract_pdf_tables].
  destruct (py_getitem_lt pdf (Z.to_nat p)) as [page Hpage].
  { specialize (Hpages p (list_elem_of_here _ _)). lia. }
  rewrite Z2Nat.id in Hpage
    by (specialize (Hpages p (list_elem_of_here _ _)); lia).
  rewrite Hpage. cbn [mbind result_bind].
  destruct IH as [all_pages_rows ->];
    [intros ? ?; by apply Hpages, list_elem_of_further|].
  by eexists.
Qed.

(** With the page range inside the document, [build_variable_catalog]
    returns a catalog. *)
Lemma build_variable_catalog_total (pdf : Document) (start end_ : Z)
    (forms_filter : list string) :
  (0 ≤ start)%Z → (end_ < Z.of_nat (length pdf))%Z →
  ∃ catalog, build_variable_catalog pdf (start, end_) forms_filter = Ok catalog.
Proof.
  intros Hstart Hend.
  destruct (extract_pdf_tables_total pdf (py_range start (end_ + 1)))
    as [all_pages_rows Hext].
  { intros p Hp. unfold py_range in Hp. apply elem_of_seqZ in Hp. lia. }
  destruct (catalog_records_total forms_filter
              (enumerate start (_iter_variable_rows all_pages_rows)))
    as [records Hrec].
  { intros page_idx row (k & Hk%list_elem_of_lookup_2 & _)%enumerate_lookup.
    apply elem_of_iter_variable_rows in Hk as [_ Hex].
    destruct (decide (3 ≤ length row)%nat); [done|].
    destruct Hex. left. lia. }
  exists {| catalog_columns := catalog_columns (from_records records);
            catalog_rows := kept_records records |}.
  apply build_variable_catalog_Ok. by exists all_pages_rows, records.
Qed.

(** The [source_page] of a catalog entry is the start of the page range
    plus the position of its row among the rows that
    [_iter_variable_rows] yields over all the pages. *)
Lemma build_variable_catalog_source_page (pdf : Document) (start end_ : Z)
    (forms_filter : list string) (catalog : Catalog) (e : CatalogEntry) :
  build_variable_catalog pdf (start, end_) forms_filter = Ok catalog →
  e ∈ catalog_rows catalog →
  ∃ all_pages_rows (k : nat) (row : Row),
    extract_pdf_tables pdf (py_range start (end_ + 1)) = Ok all_pages_rows ∧
    _iter_variable_rows all_pages_rows !! k = Some row ∧
    catalog_record forms_filter (start + Z.of_nat k) row = Ok (Some e) ∧
    source_page e = (start + Z.of_nat k)%Z.
Proof.
  intros (all_pages_rows & records & Hext & Hrec & _ & ->)
    %build_variable_catalog_Ok He.
  apply (sublist_subseteq _ _ (kept_records_sublist records)) in He.
  destruct (catalog_records_elem _ _ _ _ Hrec He) as (page_idx & row & Hin & Hrow).
  apply enumerate_lookup in Hin as (k & Hk & ->).
  exists all_pages_rows, k, row. split; [done|]. split; [done|].
  split; [done|]. by apply catalog_record_Some in Hrow as [? _].
Qed.

(** ** A reference document *)

(** The scenario of the specification: one qualifying row on the first
    page of the range. *)
Example build_variable_catalog_one_row :
  build_variable_catalog (replicate 23 [] ++ [[[score_row]]] ++ replicate 4 [])
    (23, 27)%Z default_forms_filter
  = Ok (from_records [entry "C1" "C1SCORE" "MMSE Total Score" 23]).
Proof. reflexivity. Qed.

(** C2 fails on the code. Pages 23 and 24 of [pdf_uds] hold the rows of
    the catalog: [C1SCORE] and [C1MMSE] are extracted from page 23 and
    [C1MOCA] from page 24, yet the catalog records pages 23, 24 and 25,
    because the counter that becomes [source_page] advances with every
    yielded row instead of with every page. *)
Theorem build_variable_catalog_source_page_counts_rows :
  extract_pdf_tables pdf_uds (py_range 23 (27 + 1)) =
    Ok [[header_row; score_row; short_row; mmse_row];
        [header_row; moca_row; blank_row; score_row]; []; []; []] ∧
  build_variable_catalog pdf_uds (23, 27)%Z default_forms_filter =
    Ok (from_records
          [entry "C1" "C1SCORE" "MMSE Total Score" 23;
           entry "C1" "C1MMSE" "MMSE administered" 24;
           entry "C2" "C1MOCA" "MoCA Total Score" 25]).
Proof. split; reflexivity. Qed.

Lemma build_variable_catalog_excludes_witness :
  ∃ all_pages_rows,
    extract_pdf_tables pdf_uds (py_range 23 (27 + 1)) = Ok all_pages_rows ∧
    (∀ row, row ∈ _iter_variable_rows all_pages_rows ↔
            row ∈ concat all_pages_rows ∧ ¬ row_excluded row) ∧
    (∀ e, e ∈ catalog_rows catalog_uds →
          ∃ row s, row ∈ concat all_pages_rows ∧
                   ¬ row_excluded row ∧
                   row !! 2 = Some (Some s) ∧
                   variable_name e = strip s).
Proof.
  apply (build_variable_catalog_excludes pdf_uds 23 27 default_forms_filter
           catalog_uds).
  reflexivity.
Defined.

Lemma build_variable_catalog_unique_witness :
  NoDup (variable_name <$> catalog_rows catalog_uds).
Proof.
  apply (build_variable_catalog_unique pdf_uds 23 27 default_forms_filter
           catalog_uds).
  reflexivity.
Defined.

Lemma build_variable_catalog_first_seen_witness :
  ∃ all_pages_rows records,
    extract_pdf_tables pdf_uds (py_range 23 (27 + 1)) = Ok all_pages_rows ∧
    catalog_records default_forms_filter
      (enumerate 23 (_iter_variable_rows all_pages_rows)) = Ok records ∧
    sublist (catalog_rows catalog_uds) records ∧
    NoDup (variable_name <$> catalog_rows catalog_uds) ∧
    (∀ e, e ∈ catalog_rows catalog_uds →
          ∃ l1 l2, records = l1 ++ e :: l2 ∧
                   variable_name e ∉ variable_name <$> l1) ∧
    (∀ r, r ∈ records →
          variable_name r ∈ variable_name <$> catalog_rows catalog_uds).
Proof.
  apply (build_variable_catalog_first_seen pdf_uds 23 27 default_forms_filter
           catalog_uds).
  reflexivity.
Defined.

(** The records of [pdf_uds] before de-duplication: the second [C1SCORE]
    record, from page 24, is the one that is dropped. *)
Example catalog_records_uds :
  catalog_records default_forms_filter
    (enumerate 23
       (_iter_variable_rows
          [[header_row; score_row; short_row; mmse_row];
           [header_row; moca_row; blank_row; score_row]; []; []; []]))
  = Ok [entry "C1" "C1SCORE" "MMSE Total Score" 23;
        entry "C1" "C1MMSE" "MMSE administered" 24;
        entry "C2" "C1MOCA" "MoCA Total Score" 25;
        entry "C1" "C1SCORE" "MMSE Total Score" 26].
Proof. reflexivity. Qed.

(** * Further properties *)

(** ** Table extractor: page indices *)

Lemma py_getitem_in_range {A : Type} (l : list A) (p : Z) :
  (- Z.of_nat (length l) ≤ p < Z.of_nat (length l))%Z →
  ∃ x, l !! Z.to_nat (if bool_decide (p < 0)%Z
                      then p + Z.of_nat (length l) else p)%Z = Some x ∧
       py_getitem l p = Ok x.
Proof.
  intros Hp. unfold py_getitem. cbv zeta.
  set (j := (if bool_decide (p < 0)%Z then (p + Z.of_nat (length l))%Z else p)).
  assert (0 ≤ j < Z.of_nat (length l))%Z as Hj
    by (unfold j; case_bool_decide; lia).
  rewrite (bool_decide_eq_true_2 (0 ≤ j)%Z) by lia.
  destruct (lookup_lt_is_Some_2 l (Z.to_nat j)) as [x Hx]; [lia|].
  exists x. by rewrite Hx.
Qed.

Lemma py_getitem_out_of_range {A : Type} (l : list A) (p : Z) :
  (p < - Z.of_nat (length l) ∨ Z.of_nat (length l) ≤ p)%Z →
  py_getitem l p = Raise IndexError.
Proof.
  intros Hp. unfold py_getitem. cbv zeta.
  set (j := (if bool_decide (p < 0)%Z then (p + Z.of_nat (length l))%Z else p)).
  destruct (decide (0 ≤ j)%Z) as [Hj|Hj].
  - rewrite (bool_decide_eq_true_2 (0 ≤ j)%Z) by done.
    assert (Z.of_nat (length l) ≤ j)%Z as Hge
      by (unfold j in *; case_bool_decide; lia).
    rewrite (lookup_ge_None_2 l (Z.to_nat j)) by lia. done.
  - by rewrite (bool_decide_eq_false_2 (0 ≤ j)%Z).
Qed.

Lemma concat_filter_nonempty {A : Type} (ls : list (list A)) :
  concat (filter (λ l, l ≠ []) ls) = concat ls.
Proof.
  induction ls as [|l ls IH]; [done|]. rewrite filter_cons.
  destruct l as [|x l].
  - by rewrite decide_False by (by intros ?).
  - rewrite decide_True by done. simpl. by rewrite IH.
Qed.

(** X1. With every requested page index inside the document (negative
    indices count from the end), [extract_pdf_tables] returns one sequence
    of rows per requested page, in the order requested: the rows of all the
    tables of that page, one table after the other. *)
Theorem extract_pdf_tables_in_range (pdf : Document) (pages : list Z) :
  (∀ p, p ∈ pages →
        - Z.of_nat (length pdf) ≤ p < Z.of_nat (length pdf))%Z →
  ∃ all_pages_rows,
    extract_pdf_tables pdf pages = Ok all_pages_rows ∧
    length all_pages_rows = length pages ∧
    ∀ k p, pages !! k = Some p →
      ∃ page, pdf !! page_position pdf p = Some page ∧
              all_pages_rows !! k = Some (concat page).
Proof.
  induction pages as [|p pages IH]; intros Hpages.
  - exists []. split; [done|]. split; [done|]. by intros k p [=].
  - destruct (py_getitem_in_range pdf p) as (page & Hpage & Hget);
      [apply Hpages, list_elem_of_here|].
    destruct IH as (rest & Hrest & Hlen & Hall);
      [intros ? ?; by apply Hpages, list_elem_of_further|].
    cbn [extract_pdf_tables]. rewrite Hget. cbn [mbind result_bind].
    rewrite Hrest. cbn [mbind result_bind mret result_ret].
    eexists. split; [done|]. split; [simpl; by rewrite Hlen|].
    intros [|k] q Hq.
    + injection Hq as <-. exists page. split; [done|].
      exact (f_equal Some (concat_filter_nonempty page)).
    + by apply Hall.
Qed.

Lemma extract_pdf_tables_in_range_witness :
  ∃ all_pages_rows,
    extract_pdf_tables pdf_uds [24; -5]%Z = Ok all_pages_rows ∧
    length all_pages_rows = length [24; -5]%Z ∧
    ∀ k p, [24; -5]%Z !! k = Some p →
      ∃ page, pdf_uds !! page_position pdf_uds p = Some page ∧
              all_pages_rows !! k = Some (concat page).
Proof.
  apply extract_pdf_tables_in_range.
  intros p Hp. apply elem_of_cons in Hp as [->|Hp]; [vm_compute; by split|].
  apply list_elem_of_singleton in Hp as ->. vm_compute. by split.
Defined.

Lemma extract_pdf_tables_out_of_range (pdf : Document) (pages : list Z) (p : Z) :
  p ∈ pages →
  (p < - Z.of_nat (length pdf) ∨ Z.of_nat (length pdf) ≤ p)%Z →
  extract_pdf_tables pdf pages = Raise IndexError.
Proof.
  intros Hin Hp. induction pages as [|q pages IH];
    [by apply not_elem_of_nil in Hin|].
  cbn [extract_pdf_tables].
  destruct (decide (- Z.of_nat (length pdf) ≤ q < Z.of_nat (length pdf))%Z)
    as [Hq|Hq].
  - destruct (py_getitem_in_range pdf q Hq) as (page & _ & ->).
    cbn [mbind result_bind]. apply elem_of_cons in Hin as [->|Hin]; [lia|].
    by rewrite IH.
  - rewrite py_getitem_out_of_range by lia. done.
Qed.

(** X2. A page range that is not empty and reaches past the last page of
    the document, or starts before its first page counted from the end,
    makes [build_variable_catalog] raise [IndexError]; no catalog is
    returned. *)
Theorem build_variable_catalog_out_of_range (pdf : Document) (start end_ : Z)
    (forms_filter : list string) :
  (start ≤ end_)%Z →
  (Z.of_nat (length pdf) ≤ end_ ∨ start < - Z.of_nat (length pdf))%Z →
  build_variable_catalog pdf (start, end_) forms_filter = Raise IndexError.
Proof.
  intros Hrange Hout. unfold build_variable_catalog.
  destruct Hout as [Hend|Hstart].
  - rewrite (extract_pdf_tables_out_of_range pdf _ end_); [done| |lia].
    unfold py_range. apply elem_of_seqZ. lia.
  - rewrite (extract_pdf_tables_out_of_range pdf _ start); [done| |lia].
    unfold py_range. apply elem_of_seqZ. lia.
Qed.

Lemma build_variable_catalog_out_of_range_witness :
  build_variable_catalog pdf_uds (23, 28)%Z default_forms_filter
  = Raise IndexError.
Proof.
  apply build_variable_catalog_out_of_range; [lia|]. left. vm_compute. by intros.
Defined.

(** X3. A page range whose end lies before its start reads no page: for
    any document [build_variable_catalog] returns the catalog without rows
    and without columns, and handing that catalog to
    [select_dataset_columns] raises [KeyError]. *)
Theorem build_variable_catalog_empty_range (pdf : Document) (start end_ : Z)
    (forms_filter : list string) (df : DataFrame) :
  (end_ < start)%Z →
  build_variable_catalog pdf (start, end_) forms_filter = Ok (from_records []) ∧
  select_dataset_columns df (from_records []) = Raise KeyError.
Proof.
  intros Hrange. split; [|done].
  unfold build_variable_catalog, py_range. by rewrite seqZ_nil by lia.
Qed.

Lemma build_variable_catalog_empty_range_witness :
  build_variable_catalog pdf_uds (27, 23)%Z default_forms_filter
    = Ok (from_records []) ∧
  select_dataset_columns df_scores (from_records []) = Raise KeyError.
Proof. apply build_variable_catalog_empty_range. lia. Defined.

(** ** Catalog builder: the form filter *)

Lemma prefix_spec (tok text : string) :
  String.prefix tok text = true ↔ ∃ post, text = tok +:+ post.
Proof.
  revert text. induction tok as [|a tok IH]; intros text.
  - split; [intros _; by exists text|]. intros _. by destruct text.
  - destruct text as [|b text]; simpl.
    + split; [done|]. by intros (post & [=]).
    + destruct (ascii_dec a b) as [->|Hne].
      * rewrite IH. split.
        -- intros (post & ->). by exists post.
        -- intros (post & [= ->]). by exists post.
      * split; [done|]. intros (post & [= ? _]). by destruct Hne.
Qed.

Lemma is_substring_spec (tok text : string) :
  is_substring tok text = true ↔ occurs_in tok text.
Proof.
  unfold occurs_in. induction text as [|b text IH]; cbn [is_substring].
  - rewrite orb_false_r, prefix_spec. split.
    + intros (post & ->). by exists "", post.
    + intros ([|a pre] & post & Heq); [by exists post|discriminate Heq].
  - rewrite orb_true_iff, prefix_spec, IH. split.
    + intros [(post & ->)|(pre & post & ->)].
      * by exists "", post.
      * by exists (String b pre), post.
    + intros ([|a pre] & post & Heq).
      * left. by exists post.
      * right. injection Heq as -> ->. by exists pre, post.
Qed.

(** The record that the loop body makes of a row of three cells or more. *)
Lemma catalog_record_eq (forms_filter : list string) (page_idx : Z)
    (c0 c1 c2 : Cell) (rest : Row) :
  let row := c0 :: c1 :: c2 :: rest in
  catalog_record forms_filter page_idx row =
  Ok (if bool_decide (forms_filter ≠ []) &&
         negb (existsb (λ tok, is_substring tok (form_field_of row))
                 forms_filter)
      then None
      else
        let name := match c2 with Some s => strip s | None => "" end in
        if bool_decide (name ≠ "")
        then Some {| form_field := form_field_of row;
                     variable_name := name;
                     label := match rest with
                              | Some s :: _ => strip s
                              | _ => ""
                              end;
                     source_page := page_idx |}
        else None).
Proof.
  intros row. unfold catalog_record.
  assert (py_getitem row 0 = Ok c0) as Hc0 by by apply (py_getitem_Ok row 0).
  assert (py_getitem row 1 = Ok c1) as Hc1 by by apply (py_getitem_Ok row 1).
  assert (py_getitem row 2 = Ok c2) as Hc2 by by apply (py_getitem_Ok row 2).
  rewrite (bool_decide_eq_true_2 (1 < length row)) by (simpl; lia).
  rewrite Hc0. cbn [mbind result_bind]. rewrite Hc1.
  assert ((if truthy c0 then mret c0 else Ok c1) ≫=
            (λ c1' : Cell,
               mret (strip (default "" (cell_or c0 (cell_or c1' (Some ""))))))
          = Ok (form_field_of row)) as ->.
  { unfold form_field_of, row, cell_or. by destruct (truthy c0). }
  cbn [mbind result_bind]. destruct (_ && _); [done|].
  rewrite Hc2. cbn [mbind result_bind].
  destruct rest as [|c3 rest].
  - rewrite (bool_decide_eq_false_2 (3 < length row)) by (simpl; lia).
    cbn [mbind result_bind mret result_ret]. by case_bool_decide.
  - rewrite (bool_decide_eq_true_2 (3 < length row)) by (simpl; lia).
    assert (py_getitem row 3 = Ok c3) as -> by by apply (py_getitem_Ok row 3).
    cbn [mbind result_bind mret result_ret]. by destruct c3; case_bool_decide.
Qed.

Lemma row_kept_shape (row : Row) :
  row_kept row = true →
  ∃ c0 c1 s rest, row = c0 :: c1 :: Some s :: rest ∧ strip s ≠ "".
Proof.
  destruct row as [|c0 [|c1 [|[s|] rest]]]; simpl; try done.
  intros [_ [_ Hs%bool_decide_eq_true]%andb_true_iff]%andb_true_iff.
  by exists c0, c1, s, rest.
Qed.

Lemma catalog_records_complete (forms_filter : list string)
    (rows : list (Z * Row)) (records : list CatalogEntry)
    (page_idx : Z) (row : Row) (e : CatalogEntry) :
  catalog_records forms_filter rows = Ok records →
  (page_idx, row) ∈ rows →
  catalog_record forms_filter page_idx row = Ok (Some e) →
  e ∈ records.
Proof.
  revert records. induction rows as [|[idx r] rows IH]; intros records Hrec Hin He.
  - by apply not_elem_of_nil in Hin.
  - cbn [catalog_records] in Hrec.
    apply bind_Ok in Hrec as (o & Ho & Hrec).
    apply bind_Ok in Hrec as (records' & Hrecords' & [= <-]).
    apply elem_of_cons in Hin as [[= <- <-]|Hin].
    + rewrite He in Ho. injection Ho as <-. apply elem_of_app. left.
      apply list_elem_of_here.
    + apply elem_of_app. right. by apply (IH records').
Qed.

(** X4. With a non-empty [forms_filter], the form field of every entry of
    the catalog contains one of the tokens of the filter. *)
Theorem build_variable_catalog_forms_filter (pdf : Document) (start end_ : Z)
    (forms_filter : list string) (catalog : Catalog) (e : CatalogEntry) :
  build_variable_catalog pdf (start, end_) forms_filter = Ok catalog →
  forms_filter ≠ [] →
  e ∈ catalog_rows catalog →
  ∃ tok, tok ∈ forms_filter ∧ occurs_in tok (form_field e).
Proof.
  intros (all_pages_rows & records & Hext & Hrec & _ & Hrows)
    %build_variable_catalog_Ok Hff He.
  rewrite Hrows in He.
  apply (sublist_subseteq _ _ (kept_records_sublist records)) in He.
  destruct (catalog_records_elem _ _ _ _ Hrec He) as (page_idx & row & Hin & Hrow).
  apply enumerate_lookup in Hin as (k & Hk%list_elem_of_lookup_2 & _).
  rewrite _iter_variable_rows_filter in Hk.
  apply list_elem_of_filter in Hk as [Hkept _].
  apply row_kept_shape in Hkept as (c0 & c1 & s & rest & -> & _).
  rewrite catalog_record_eq in Hrow. injection Hrow as Hrow.
  rewrite (bool_decide_eq_true_2 (forms_filter ≠ [])) in Hrow by done.
  cbn [andb] in Hrow.
  destruct (existsb _ forms_filter) eqn:Hex; [|discriminate Hrow].
  apply existsb_elem_of in Hex as (tok & Htok & Hsub). cbn [negb] in Hrow.
  cbv zeta in Hrow. case_bool_decide; [|discriminate Hrow].
  injection Hrow as <-. exists tok. split; [done|]. by apply is_substring_spec.
Qed.

Lemma build_variable_catalog_forms_filter_witness :
  ∃ tok, tok ∈ default_forms_filter ∧
         occurs_in tok (form_field (entry "C2" "C1MOCA" "MoCA Total Score" 25)).
Proof.
  apply (build_variable_catalog_forms_filter pdf_uds 23 27 default_forms_filter
           catalog_uds).
  - reflexivity.
  - done.
  - apply (bool_decide_unpack _). reflexivity.
Defined.

(** X5. No qualifying row is lost: the trimmed cell 2 of every row that
    [_iter_variable_rows] yields is a [variable_name] of the catalog,
    provided the filter is empty or the form field of the row (cell 0, or
    else cell 1, trimmed) contains one of its tokens. *)
Theorem build_variable_catalog_complete (pdf : Document) (start end_ : Z)
    (forms_filter : list string) (catalog : Catalog)
    (all_pages_rows : list (list Row)) (row : Row) :
  build_variable_catalog pdf (start, end_) forms_filter = Ok catalog →
  extract_pdf_tables pdf (py_range start (end_ + 1)) = Ok all_pages_rows →
  row ∈ _iter_variable_rows all_pages_rows →
  forms_filter = [] ∨
    (∃ tok, tok ∈ forms_filter ∧ occurs_in tok (form_field_of row)) →
  ∃ s, row !! 2 = Some (Some s) ∧
       strip s ∈ variable_name <$> catalog_rows catalog.
Proof.
  intros (all_pages_rows' & records & Hext & Hrec & _ & Hrows)
    %build_variable_catalog_Ok Hext' Hrow Hff.
  rewrite Hext in Hext'. injection Hext' as ->. rewrite Hrows.
  apply list_elem_of_lookup_1 in Hrow as [k Hk].
  pose proof (list_elem_of_lookup_2 _ _ _ Hk) as Hkept.
  rewrite _iter_variable_rows_filter in Hkept.
  apply list_elem_of_filter in Hkept as [Hkept _].
  apply row_kept_shape in Hkept as (c0 & c1 & s & rest & -> & Hs).
  exists s. split; [done|].
  set (row := c0 :: c1 :: Some s :: rest) in *.
  set (e := {| form_field := form_field_of row;
               variable_name := strip s;
               label := match rest with Some t :: _ => strip t | _ => "" end;
               source_page := start + Z.of_nat k |}).
  assert (catalog_record forms_filter (start + Z.of_nat k) row = Ok (Some e))
    as He.
  { unfold row. rewrite catalog_record_eq. fold row. f_equal.
    replace (bool_decide (forms_filter ≠ []) &&
             negb (existsb (λ tok, is_substring tok (form_field_of row))
                     forms_filter)) with false.
    - cbv zeta. by rewrite bool_decide_eq_true_2.
    - symmetry. destruct Hff as [->|(tok & Htok & Hocc)]; [done|].
      apply andb_false_iff. right. apply negb_false_iff, existsb_elem_of.
      exists tok. split; [done|]. by apply is_substring_spec. }
  assert (e ∈ records) as Hin.
  { eapply catalog_records_complete; [exact Hrec| |exact He].
    apply enumerate_lookup. by exists k. }
  destruct (drop_duplicates_from ∅ records) as (_ & _ & _ & Hall).
  destruct (Hall e Hin) as [Hempty|Hname]; [by apply not_elem_of_empty in Hempty|].
  done.
Qed.

Lemma build_variable_catalog_complete_witness :
  ∃ s, mmse_row !! 2 = Some (Some s) ∧
       strip s ∈ variable_name <$> catalog_rows catalog_uds.
Proof.
  apply (build_variable_catalog_complete pdf_uds 23 27 default_forms_filter
           catalog_uds
           [[header_row; score_row; short_row; mmse_row];
            [header_row; moca_row; blank_row; score_row]; []; []; []]).
  - reflexivity.
  - reflexivity.
  - apply (bool_decide_unpack _). reflexivity.
  - right. exists "C1". split; [apply list_elem_of_here|]. by exists "", "".
Defined.

(** ** Catalog builder: the recorded page numbers *)

Lemma StronglySorted_sublist {A : Type} (R : relation A) (l1 l2 : list A) :
  sublist l1 l2 → StronglySorted R l2 → StronglySorted R l1.
Proof.
  induction 1 as [|x l1 l2 Hsub IH|x l1 l2 Hsub IH]; intros Hsorted; [done|..].
  - apply StronglySorted_inv in Hsorted as [Hsorted Hall].
    constructor; [by apply IH|]. rewrite Forall_forall in Hall |- *.
    intros y Hy. by apply Hall, (sublist_subseteq _ _ Hsub).
  - apply StronglySorted_inv in Hsorted as [Hsorted _]. by apply IH.
Qed.

Lemma catalog_records_source_pages (forms_filter : list string) (start : Z)
    (rows : list Row) (records : list CatalogEntry) :
  catalog_records forms_filter (enumerate start rows) = Ok records →
  StronglySorted (λ a b, source_page a < source_page b)%Z records ∧
  Forall (λ e, start ≤ source_page e < start + Z.of_nat (length rows))%Z records.
Proof.
  revert start records. induction rows as [|row rows IH]; intros start records.
  - intros [= <-]. split; constructor.
  - cbn [enumerate catalog_records]. intros Hrec.
    apply bind_Ok in Hrec as (o & Ho & Hrec).
    apply bind_Ok in Hrec as (records' & Hrecords' & [= <-]).
    destruct (IH _ _ Hrecords') as [Hsorted Hall].
    assert (Forall (λ e, start ≤ source_page e
                         < start + Z.of_nat (length (row :: rows)))%Z records')
      as Hall'.
    { eapply Forall_impl; [exact Hall|]. intros e He. simpl in *. lia. }
    destruct o as [e|]; simpl; [|done].
    apply catalog_record_Some in Ho as [Hpage _]. split.
    + constructor; [done|]. eapply Forall_impl; [exact Hall|].
      intros e' He'. simpl in *. lia.
    + constructor; [|done]. simpl. lia.
Qed.

(** X6. The [source_page] values of a catalog increase strictly from one
    entry to the next, so no two entries carry the same one, and they lie
    between the start of the page range and the start plus the number of
    qualifying rows. *)
Theorem build_variable_catalog_source_pages (pdf : Document) (start end_ : Z)
    (forms_filter : list string) (catalog : Catalog)
    (all_pages_rows : list (list Row)) :
  build_variable_catalog pdf (start, end_) forms_filter = Ok catalog →
  extract_pdf_tables pdf (py_range start (end_ + 1)) = Ok all_pages_rows →
  StronglySorted (λ a b, source_page a < source_page b)%Z
    (catalog_rows catalog) ∧
  ∀ e, e ∈ catalog_rows catalog →
       (start ≤ source_page e
        < start + Z.of_nat (length (_iter_variable_rows all_pages_rows)))%Z.
Proof.
  intros (all_pages_rows' & records & Hext & Hrec & _ & Hrows)
    %build_variable_catalog_Ok Hext'.
  rewrite Hext in Hext'. injection Hext' as ->. rewrite Hrows.
  destruct (catalog_records_source_pages _ _ _ _ Hrec) as [Hsorted Hall].
  split.
  - by apply (StronglySorted_sublist _ _ _ (kept_records_sublist records)).
  - intros e He. rewrite Forall_forall in Hall. apply Hall.
    by apply (sublist_subseteq _ _ (kept_records_sublist records)).
Qed.

Lemma build_variable_catalog_source_pages_witness :
  StronglySorted (λ a b, source_page a < source_page b)%Z
    (catalog_rows catalog_uds) ∧
  ∀ e, e ∈ catalog_rows catalog_uds →
       (23 ≤ source_page e
        < 23 + Z.of_nat
                 (length (_iter_variable_rows
                            [[header_row; score_row; short_row; mmse_row];
                             [header_row; moca_row; blank_row; score_row];
                             []; []; []])))%Z.
Proof.
  apply (build_variable_catalog_source_pages pdf_uds 23 27 default_forms_filter
           catalog_uds).
  - reflexivity.
  - reflexivity.
Defined.

(** X7. [_iter_variable_rows] yields the rows in the order of the pages and
    of the rows within a page, and yields again every row it is given that
    it has yielded before: run on its own output it returns it
    unchanged. *)
Theorem _iter_variable_rows_order (all_pages_rows : list (list Row)) :
  sublist (_iter_variable_rows all_pages_rows) (concat all_pages_rows) ∧
  _iter_variable_rows [_iter_variable_rows all_pages_rows]
  = _iter_variable_rows all_pages_rows.
Proof.
  split.
  - rewrite _iter_variable_rows_filter. apply sublist_filter.
  - rewrite (_iter_variable_rows_filter [_]). cbn [concat].
    rewrite app_nil_r, _iter_variable_rows_filter, list_filter_filter.
    apply list_filter_iff. tauto.
Qed.

(** ** Column aligner: selecting twice *)

Lemma filter_ext_in {A : Type} (P1 P2 : A → Prop)
    `{!∀ x, Decision (P1 x), !∀ x, Decision (P2 x)} (l : list A) :
  (∀ x, x ∈ l → P1 x ↔ P2 x) → filter P1 l = filter P2 l.
Proof.
  induction l as [|a l IH]; intros Hiff; [done|].
  rewrite !filter_cons.
  rewrite IH by (intros ? ?; by apply Hiff, list_elem_of_further).
  apply decide_ext, Hiff, list_elem_of_here.
Qed.

Lemma getitem_list_own_labels {A : Type} (l cs : list (string * A)) :
  NoDup l.*1 → (∀ c, c ∈ cs → c ∈ l) →
  (cs.*1 ≫= λ label, with_label label l) = cs.
Proof.
  intros Hnd. induction cs as [|c cs IH]; intros Hcs; [done|].
  rewrite fmap_cons, bind_cons.
  rewrite with_label_NoDup by (done || apply Hcs, list_elem_of_here).
  simpl. f_equal. apply IH. intros ? ?. by apply Hcs, list_elem_of_further.
Qed.

(** X8. With distinct labels in the table and distinct names in a catalog
    that has its [variable_name] column, the selected table again has
    distinct labels, is well formed when the table is, and selecting from
    it with the same catalog returns it unchanged. *)
Theorem select_dataset_columns_idempotent (df : DataFrame) (catalog : Catalog) :
  NoDup (columns df) →
  "variable_name" ∈ catalog_columns catalog →
  NoDup (variable_name <$> catalog_rows catalog) →
  ∃ subset,
    select_dataset_columns df catalog = Ok subset ∧
    NoDup (columns subset) ∧
    (wf_frame df → wf_frame subset) ∧
    select_dataset_columns subset catalog = Ok subset.
Proof.
  intros Hnd Hcol Hnames.
  unfold select_dataset_columns, catalog_variable_names, frame_getitem_list.
  rewrite bool_decide_eq_true_2 by done.
  cbn [mbind result_bind mret result_ret].
  set (names := variable_name <$> catalog_rows catalog) in *.
  set (labels := filter (λ v, v ∈ columns df) names).
  assert (∀ v, v ∈ labels → v ∈ columns df) as Hlabels
    by (by intros v [? _]%list_elem_of_filter).
  rewrite getitem_list_Ok by done. cbn [mbind result_bind mret result_ret].
  set (cols := labels ≫= λ label, with_label label (frame_columns df)).
  assert (cols.*1 = labels) as Hfst by by apply getitem_list_labels.
  assert (NoDup labels) as Hndl by by apply NoDup_filter.
  eexists. split; [done|]. split; [|split].
  - unfold columns. simpl. by rewrite Hfst.
  - intros [Hlen _]. split.
    + simpl. rewrite Forall_forall in Hlen |- *.
      intros c [_ Hc]%elem_of_getitem_list. by apply Hlen.
    + unfold columns. simpl. by rewrite Hfst.
  - assert (filter
              (λ v, v ∈ columns {| index_len := index_len df;
                                   frame_columns := cols |}) names
            = labels) as ->.
    { unfold labels. apply filter_ext_in. intros v Hv.
      unfold columns at 1. simpl. rewrite Hfst. unfold labels.
      rewrite list_elem_of_filter. tauto. }
    simpl. rewrite getitem_list_Ok by (intros v Hv; by rewrite Hfst).
    cbn [mbind result_bind mret result_ret]. do 2 f_equal.
    rewrite <- Hfst at 1. apply getitem_list_own_labels; [|done].
    by rewrite Hfst.
Qed.

Lemma select_dataset_columns_idempotent_witness :
  ∃ subset,
    select_dataset_columns df_scores catalog_moca_first = Ok subset ∧
    NoDup (columns subset) ∧
    (wf_frame df_scores → wf_frame subset) ∧
    select_dataset_columns subset catalog_moca_first = Ok subset.
Proof.
  apply select_dataset_columns_idempotent;
    apply (bool_decide_unpack _); reflexivity.
Defined.

(** ** Assessment tagger: what it leaves in place *)

Lemma assessment_flags_Ok_inv (out : DataFrame) (cols : list string)
    (missing_sentinel : Q) (flags : list value) :
  assessment_flags out cols missing_sentinel = Ok flags →
  (∀ c, c ∈ cols → c ∈ columns out) ∧
  flags_of out cols missing_sentinel flags.
Proof.
  intros Hflags.
  destruct (decide (Forall (λ c, c ∈ columns out) cols)) as [Hall|Hnot].
  - rewrite Forall_forall in Hall. split; [done|].
    destruct (assessment_flags_Ok out cols missing_sentinel Hall)
      as (flags' & Hflags' & Hof).
    rewrite Hflags in Hflags'. by injection Hflags' as ->.
  - apply not_Forall_Exists in Hnot; [|apply _].
    apply Exists_exists in Hnot as (c & Hc & Hnot).
    by rewrite (assessment_flags_Raise _ _ _ c) in Hflags.
Qed.

Lemma tag_assessments_Ok (df : DataFrame) (mmse_cols moca_cols : list string)
    (missing_sentinel : Q) (tagged : DataFrame) :
  tag_assessments df mmse_cols moca_cols missing_sentinel = Ok tagged ↔
  ∃ has_mmse has_moca,
    assessment_flags df mmse_cols missing_sentinel = Ok has_mmse ∧
    assessment_flags (frame_setitem df "has_MMSE" has_mmse) moca_cols
      missing_sentinel = Ok has_moca ∧
    tagged = frame_setitem (frame_setitem df "has_MMSE" has_mmse)
               "has_MOCA" has_moca.
Proof.
  unfold tag_assessments. rewrite bind_Ok. split.
  - intros (has_mmse & H1 & (has_moca & H2 & [= <-])%bind_Ok).
    by exists has_mmse, has_moca.
  - intros (has_mmse & has_moca & H1 & H2 & ->). exists has_mmse.
    split; [done|]. apply bind_Ok. by exists has_moca.
Qed.

Lemma frame_setitem_new (df : DataFrame) (label : string) (vals : list value) :
  label ∉ columns df →
  frame_columns (frame_setitem df label vals) = frame_columns df ++ [(label, vals)].
Proof. intros Hnot. unfold frame_setitem. simpl. by rewrite bool_decide_eq_false_2. Qed.

(** X9. On a table that has neither flag column, [tag_assessments] keeps
    every column as it is and in place and appends [has_MMSE] and
    [has_MOCA], in this order, with one value per record; the tagged table
    is well formed when the table is. *)
Theorem tag_assessments_appends (df : DataFrame)
    (mmse_cols moca_cols : list string) (missing_sentinel : Q)
    (tagged : DataFrame) :
  tag_assessments df mmse_cols moca_cols missing_sentinel = Ok tagged →
  "has_MMSE" ∉ columns df →
  "has_MOCA" ∉ columns df →
  ∃ has_mmse has_moca,
    frame_columns tagged =
      frame_columns df ++ [("has_MMSE", has_mmse); ("has_MOCA", has_moca)] ∧
    index_len tagged = index_len df ∧
    length has_mmse = index_len df ∧
    length has_moca = index_len df ∧
    (wf_frame df → wf_frame tagged).
Proof.
  intros (has_mmse & has_moca & H1 & H2 & ->)%tag_assessments_Ok Hmmse Hmoca.
  apply assessment_flags_Ok_inv in H1 as [_ [Hlen1 _]].
  apply assessment_flags_Ok_inv in H2 as [_ [Hlen2 _]]. simpl in Hlen2.
  exists has_mmse, has_moca.
  assert (frame_columns
            (frame_setitem (frame_setitem df "has_MMSE" has_mmse)
               "has_MOCA" has_moca)
          = frame_columns df ++ [("has_MMSE", has_mmse); ("has_MOCA", has_moca)])
    as Hcols.
  { rewrite frame_setitem_new.
    - rewrite frame_setitem_new by done. by rewrite <- app_assoc.
    - rewrite columns_frame_setitem, bool_decide_eq_false_2 by done.
      rewrite elem_of_app, list_elem_of_singleton. by intros [?|?]. }
  split; [done|]. split; [done|]. split; [done|]. split; [done|].
  intros [Hlen Hnd]. split.
  - rewrite Hcols. simpl. apply Forall_app. split; [done|].
    by repeat constructor.
  - unfold columns. rewrite Hcols, fmap_app. simpl. apply NoDup_app.
    split; [done|]. split.
    + intros c Hc [->|[->|[]%not_elem_of_nil]%elem_of_cons]%elem_of_cons; done.
    + apply (bool_decide_unpack _). reflexivity.
Qed.

Lemma tag_assessments_appends_witness :
  ∃ has_mmse has_moca,
    frame_columns
      {| index_len := 2;
         frame_columns :=
           [("C1SCORE", [VNum (-4)%Q; VNum 24%Q]);
            ("C1MMSE", [VNa; VNa]);
            ("C1MOCA", [VNum (-4)%Q; VNum (-4)%Q]);
            ("has_MMSE", [VBool false; VBool true]);
            ("has_MOCA", [VBool false; VBool false])] |} =
      frame_columns df_scores
        ++ [("has_MMSE", has_mmse); ("has_MOCA", has_moca)] ∧
    2 = index_len df_scores ∧
    length has_mmse = index_len df_scores ∧
    length has_moca = index_len df_scores ∧
    (wf_frame df_scores →
     wf_frame
       {| index_len := 2;
          frame_columns :=
            [("C1SCORE", [VNum (-4)%Q; VNum 24%Q]);
             ("C1MMSE", [VNa; VNa]);
             ("C1MOCA", [VNum (-4)%Q; VNum (-4)%Q]);
             ("has_MMSE", [VBool false; VBool true]);
             ("has_MOCA", [VBool false; VBool false])] |}).
Proof.
  apply (tag_assessments_appends df_scores ["C1SCORE"; "C1MMSE"] ["C1MOCA"]
           default_sentinel).
  - reflexivity.
  - apply (bool_decide_unpack _). reflexivity.
  - apply (bool_decide_unpack _). reflexivity.
Defined.

Lemma with_label_setitem_other (df : DataFrame) (label label' : string)
    (vals : list value) :
  label' ≠ label →
  with_label label' (frame_columns (frame_setitem df label vals))
  = with_label label' (frame_columns df).
Proof.
  intros Hne. unfold frame_setitem, with_label. simpl. case_bool_decide.
  - induction (frame_columns df) as [|c cs IH]; [done|].
    rewrite fmap_cons, !filter_cons, IH. case_bool_decide as Hc; simpl.
    + rewrite !decide_False; [done| |]; congruence.
    + done.
  - rewrite filter_app, filter_cons, decide_False by (simpl; congruence).
    by rewrite filter_nil, app_nil_r.
Qed.

Lemma getitem_list_setitem_other (df : DataFrame) (label : string)
    (vals : list value) (labels : list string) :
  label ∉ labels →
  getitem_list (frame_columns (frame_setitem df label vals)) labels
  = getitem_list (frame_columns df) labels.
Proof.
  induction labels as [|label' labels IH]; intros Hnot; [done|].
  apply not_elem_of_cons in Hnot as [Hne Hnot]. cbn [getitem_list].
  rewrite with_label_setitem_other by done. by rewrite IH.
Qed.

Lemma assessment_flags_setitem_other (out : DataFrame) (label : string)
    (vals : list value) (cols : list string) (missing_sentinel : Q) :
  label ∉ cols →
  assessment_flags (frame_setitem out label vals) cols missing_sentinel
  = assessment_flags out cols missing_sentinel.
Proof.
  intros Hnot. unfold assessment_flags, frame_getitem_list.
  by rewrite getitem_list_setitem_other.
Qed.

Lemma frame_setitem_same_value (df : DataFrame) (label : string)
    (vals : list value) :
  label ∈ columns df →
  (∀ c, c ∈ frame_columns df → c.1 = label → c.2 = vals) →
  frame_setitem df label vals = df.
Proof.
  intros Hin Hvals. destruct df as [n cols]. unfold frame_setitem. simpl in *.
  rewrite bool_decide_eq_true_2 by done. f_equal.
  rewrite <- (list_fmap_id cols) at 2. apply list_fmap_ext.
  intros i [name data] Hc. simpl. case_bool_decide as Hname; [|done].
  f_equal. symmetry.
  apply (Hvals (name, data)); [by eapply list_elem_of_lookup_2|done].
Qed.

(** X10. Tagging a tagged table again, with the same groups, changes
    nothing, as long as no group names one of the two flag columns. *)
Theorem tag_assessments_retag (df : DataFrame)
    (mmse_cols moca_cols : list string) (missing_sentinel : Q)
    (tagged : DataFrame) :
  tag_assessments df mmse_cols moca_cols missing_sentinel = Ok tagged →
  "has_MMSE" ∉ mmse_cols ++ moca_cols →
  "has_MOCA" ∉ mmse_cols ++ moca_cols →
  tag_assessments tagged mmse_cols moca_cols missing_sentinel = Ok tagged.
Proof.
  intros (has_mmse & has_moca & H1 & H2 & ->)%tag_assessments_Ok Hmmse Hmoca.
  rewrite elem_of_app in Hmmse, Hmoca.
  set (out1 := frame_setitem df "has_MMSE" has_mmse) in *.
  set (out2 := frame_setitem out1 "has_MOCA" has_moca).
  assert ("has_MMSE" ∈ columns out1) as Hin1.
  { unfold out1. rewrite columns_frame_setitem. case_bool_decide; [done|].
    apply elem_of_app. right. apply list_elem_of_here. }
  assert ("has_MMSE" ∈ columns out2) as Hin2.
  { unfold out2. rewrite columns_frame_setitem. case_bool_decide; [done|].
    apply elem_of_app. by left. }
  assert ("has_MOCA" ∈ columns out2) as Hin3.
  { unfold out2. rewrite columns_frame_setitem. case_bool_decide; [done|].
    apply elem_of_app. right. apply list_elem_of_here. }
  assert (frame_setitem out2 "has_MMSE" has_mmse = out2) as Hset1.
  { apply frame_setitem_same_value; [done|]. intros [name data] Hc Hname.
    simpl in *. subst name. unfold out2 in Hc.
    apply frame_setitem_other in Hc; [|done]. by apply frame_setitem_same in Hc. }
  assert (frame_setitem out2 "has_MOCA" has_moca = out2) as Hset2.
  { apply frame_setitem_same_value; [done|]. intros [name data] Hc Hname.
    simpl in *. subst name. by apply frame_setitem_same in Hc. }
  apply tag_assessments_Ok. exists has_mmse, has_moca. split; [|split].
  - unfold out2, out1. rewrite !assessment_flags_setitem_other by tauto. done.
  - rewrite Hset1. unfold out2. rewrite assessment_flags_setitem_other by tauto.
    done.
  - by rewrite Hset1, Hset2.
Qed.

Lemma tag_assessments_retag_witness :
  tag_assessments
    {| index_len := 2;
       frame_columns :=
         [("C1SCORE", [VNum (-4)%Q; VNum 24%Q]);
          ("C1MMSE", [VNa; VNa]);
          ("C1MOCA", [VNum (-4)%Q; VNum (-4)%Q]);
          ("has_MMSE", [VBool false; VBool true]);
          ("has_MOCA", [VBool false; VBool false])] |}
    ["C1SCORE"; "C1MMSE"] ["C1MOCA"] default_sentinel
  = Ok {| index_len := 2;
          frame_columns :=
            [("C1SCORE", [VNum (-4)%Q; VNum 24%Q]);
             ("C1MMSE", [VNa; VNa]);
             ("C1MOCA", [VNum (-4)%Q; VNum (-4)%Q]);
             ("has_MMSE", [VBool false; VBool true]);
             ("has_MOCA", [VBool false; VBool false])] |}.
Proof.
  apply (tag_assessments_retag df_scores).
  - reflexivity.
  - apply (bool_decide_unpack _). reflexivity.
  - apply (bool_decide_unpack _). reflexivity.
Defined.

(** ** Flags, empty rows and counts together *)

Lemma compute_empty_rows_mask_lookup (df : DataFrame) (exclude : list string)
    (missing_sentinel : Q) (mask : list bool) (i : nat) :
  compute_empty_rows_mask df exclude missing_sentinel = Ok mask →
  i < index_len df →
  ∃ flag, mask !! i = Some flag ∧
    (flag = false ↔
     ∃ c, c ∈ frame_columns df ∧ (c.1 ∉ exclude) ∧
          is_valid missing_sentinel (cell_at i c) = true).
Proof.
  rewrite compute_empty_rows_mask_eq. intros [= <-] Hi. eexists. split.
  - rewrite list_lookup_fmap.
    assert (iterrows df !! i = Some (row_at df i)) as ->
      by by apply lookup_iterrows.
    done.
  - rewrite negb_false_iff, row_has_valid. split.
    + intros (c & Hc & [Hex _]%list_elem_of_filter & Hv). by exists c.
    + intros (c & Hc & Hex & Hv). exists c. split; [done|]. split; [|done].
      apply list_elem_of_filter. split; [done|]. by apply list_elem_of_fmap_2.
Qed.

(** X11. In a tagged table, a record whose [has_MMSE] or [has_MOCA] flag
    is true is never reported as a completely empty row by
    [compute_empty_rows_mask] with its default exclusions, as long as no
    group names one of the two flag columns. *)
Theorem tagged_flag_not_empty (df : DataFrame)
    (mmse_cols moca_cols : list string) (missing_sentinel : Q)
    (tagged : DataFrame) (mask : list bool) (flag_col : string)
    (vals : list value) (i : nat) :
  tag_assessments df mmse_cols moca_cols missing_sentinel = Ok tagged →
  (∀ c, c ∈ mmse_cols ++ moca_cols → c ∉ default_exclude) →
  compute_empty_rows_mask tagged default_exclude missing_sentinel = Ok mask →
  flag_col ∈ default_exclude →
  (flag_col, vals) ∈ frame_columns tagged →
  vals !! i = Some (VBool true) →
  mask !! i = Some false.
Proof.
  intros (has_mmse & has_moca & H1 & H2 & ->)%tag_assessments_Ok
    Hgroups Hmask Hflag Hvals Hi.
  apply assessment_flags_Ok_inv in H1 as [_ [Hlen1 Hof1]].
  apply assessment_flags_Ok_inv in H2 as [_ [Hlen2 Hof2]].
  simpl in Hlen2, Hof2.
  set (out1 := frame_setitem df "has_MMSE" has_mmse) in *.
  set (out2 := frame_setitem out1 "has_MOCA" has_moca) in *.
  assert (∀ c : string * list value,
            c.1 ∈ mmse_cols ++ moca_cols → c.1 ≠ "has_MMSE" ∧ c.1 ≠ "has_MOCA")
    as Hne.
  { intros c Hc. specialize (Hgroups _ Hc). unfold default_exclude in Hgroups.
    rewrite !not_elem_of_cons in Hgroups. tauto. }
  assert (i < index_len df ∧
          ∃ c, c ∈ frame_columns out2 ∧ (c.1 ∉ default_exclude) ∧
               is_valid missing_sentinel (cell_at i c) = true)
    as [Hlt (c & Hc & Hex & Hv)].
  { unfold default_exclude in Hflag.
    apply elem_of_cons in Hflag as [->|Hflag%list_elem_of_singleton].
    - apply (frame_setitem_other out1 "has_MOCA") in Hvals; [|done].
      apply frame_setitem_same in Hvals as ->.
      assert (i < index_len df) as Hlt
        by (rewrite <- Hlen1; by eapply lookup_lt_Some).
      split; [done|]. destruct (Hof1 i Hlt) as (b & Hb & Hiff).
      rewrite Hi in Hb. injection Hb as <-.
      destruct Hiff as [(c & Hc & Hgroup & Hv) _]; [done|].
      destruct (Hne c) as [? ?]; [apply elem_of_app; by left|].
      exists c. split.
      { apply frame_setitem_other; [done|]. by apply frame_setitem_other. }
      split; [|done]. apply Hgroups, elem_of_app. by left.
    - subst flag_col. apply frame_setitem_same in Hvals as ->.
      assert (i < index_len df) as Hlt
        by (rewrite <- Hlen2; by eapply lookup_lt_Some).
      split; [done|]. destruct (Hof2 i Hlt) as (b & Hb & Hiff).
      rewrite Hi in Hb. injection Hb as <-.
      destruct Hiff as [(c & Hc & Hgroup & Hv) _]; [done|].
      destruct (Hne c) as [? ?]; [apply elem_of_app; by right|].
      exists c. split; [by apply frame_setitem_other|].
      split; [|done]. apply Hgroups, elem_of_app. by right. }
  destruct (compute_empty_rows_mask_lookup _ _ _ _ i Hmask Hlt)
    as (flag & Hlookup & Hiff).
  rewrite Hlookup. f_equal. apply Hiff. by exists c.
Qed.

Lemma tagged_flag_not_empty_witness :
  [true; false] !! 1 = Some false.
Proof.
  apply (tagged_flag_not_empty df_scores ["C1SCORE"; "C1MMSE"] ["C1MOCA"]
           default_sentinel
           {| index_len := 2;
              frame_columns :=
                [("C1SCORE", [VNum (-4)%Q; VNum 24%Q]);
                 ("C1MMSE", [VNa; VNa]);
                 ("C1MOCA", [VNum (-4)%Q; VNum (-4)%Q]);
                 ("has_MMSE", [VBool false; VBool true]);
                 ("has_MOCA", [VBool false; VBool false])] |}
           [true; false] "has_MMSE" [VBool false; VBool true] 1).
  - reflexivity.
  - intros c Hc. apply (bool_decide_unpack _).
    repeat (apply elem_of_cons in Hc as [->|Hc]; [reflexivity|]).
    by apply not_elem_of_nil in Hc.
  - reflexivity.
  - apply list_elem_of_here.
  - simpl. do 3 apply list_elem_of_further. apply list_elem_of_here.
  - reflexivity.
Defined.

Lemma summarize_availability_rows (nargsort_desc : list Z → list nat)
    (df : DataFrame) (exclude : list string) (missing_sentinel : Q)
    (summary : list SummaryRow) (r : SummaryRow) :
  sorts_descending nargsort_desc →
  NoDup (columns df) →
  summarize_availability nargsort_desc df exclude missing_sentinel
    = Ok summary →
  r ∈ summary ↔
  ∃ c, c ∈ frame_columns df ∧ (c.1 ∉ exclude) ∧
       r = summary_row missing_sentinel (len df) c.
Proof.
  intros Hsort Hnd. rewrite summarize_availability_eq by done.
  set (rows := summary_row missing_sentinel (len df)
                 <$> filter (λ c, c.1 ∉ exclude) (frame_columns df)).
  intros Hsum.
  assert (summary ≡ₚ rows) as ->.
  { assert (summary = take_rows rows (nargsort_desc (Valid_Data_Count <$> rows)))
      as -> by (destruct rows; by simplify_eq).
    apply take_rows_Permutation.
    destruct (Hsort (Valid_Data_Count <$> rows)) as [Hp _].
    by rewrite length_fmap in Hp. }
  unfold rows. rewrite list_elem_of_fmap. split.
  - intros (c & -> & [? ?]%list_elem_of_filter). by exists c.
  - intros (c & ? & ? & ->). exists c. by rewrite list_elem_of_filter.
Qed.

(** X12. For a well-formed table the two diagnostics agree: every record
    is flagged empty by [compute_empty_rows_mask] exactly when every row of
    the summary of [summarize_availability], for the same exclusions and
    sentinel, has a count of 0. *)
Theorem empty_rows_iff_zero_counts (nargsort_desc : list Z → list nat)
    (df : DataFrame) (exclude : list string) (missing_sentinel : Q)
    (summary : list SummaryRow) (mask : list bool) :
  sorts_descending nargsort_desc →
  wf_frame df →
  summarize_availability nargsort_desc df exclude missing_sentinel
    = Ok summary →
  compute_empty_rows_mask df exclude missing_sentinel = Ok mask →
  (∀ flag, flag ∈ mask → flag = true) ↔
  (∀ r, r ∈ summary → Valid_Data_Count r = 0%Z).
Proof.
  intros Hsort [Hlen Hnd] Hsum Hmask. rewrite Forall_forall in Hlen.
  assert (length mask = index_len df) as Hlmask.
  { rewrite compute_empty_rows_mask_eq in Hmask. injection Hmask as <-.
    by rewrite length_fmap, length_iterrows. }
  split.
  - intros Hall r Hr.
    apply (summarize_availability_rows _ _ _ _ _ _ Hsort Hnd Hsum) in Hr
      as (c & Hc & Hex & ->).
    simpl. rewrite count_true_is_valid.
    destruct (filter (λ v, is_valid missing_sentinel v = true) c.2)
      as [|v vs] eqn:Hf; [done|].
    assert (v ∈ filter (λ v, is_valid missing_sentinel v = true) c.2)
      as [Hv [i Hi]%list_elem_of_lookup_1]%list_elem_of_filter
      by (rewrite Hf; apply list_elem_of_here).
    assert (i < index_len df) as Hlt
      by (rewrite <- (Hlen c Hc); by eapply lookup_lt_Some).
    destruct (compute_empty_rows_mask_lookup _ _ _ _ i Hmask Hlt)
      as (flag & Hflag & Hiff).
    assert (flag = false) as ->.
    { apply Hiff. exists c. split; [done|]. split; [done|].
      unfold cell_at. by rewrite Hi. }
    by apply list_elem_of_lookup_2, Hall in Hflag.
  - intros Hzero flag [i Hi]%list_elem_of_lookup_1.
    assert (i < index_len df) as Hlt
      by (rewrite <- Hlmask; by eapply lookup_lt_Some).
    destruct (compute_empty_rows_mask_lookup _ _ _ _ i Hmask Hlt)
      as (flag' & Hflag & Hiff).
    rewrite Hi in Hflag. injection Hflag as <-.
    destruct flag; [done|]. destruct Hiff as [(c & Hc & Hex & Hv) _]; [done|].
    assert (Valid_Data_Count (summary_row missing_sentinel (len df) c) = 0%Z)
      as Hcount.
    { apply Hzero.
      apply (summarize_availability_rows _ _ _ _ _ _ Hsort Hnd Hsum).
      by exists c. }
    simpl in Hcount. rewrite count_true_is_valid in Hcount.
    unfold cell_at in Hv. destruct (c.2 !! i) as [v|] eqn:Hci; [|done].
    assert (v ∈ filter (λ v, is_valid missing_sentinel v = true) c.2) as Hin.
    { apply list_elem_of_filter. split; [done|]. by eapply list_elem_of_lookup_2. }
    destruct (filter _ c.2); [by apply not_elem_of_nil in Hin|].
    simpl in Hcount. lia.
Qed.

(** A table of two records without a valid value. *)
Lemma empty_rows_iff_zero_counts_witness :
  (∀ flag, flag ∈ [true; true] → flag = true) ↔
  (∀ r, r ∈ summary_row default_sentinel 2
              <$> [("C1MMSE", [VNa; VNa]);
                   ("C1MOCA", [VNum (-4)%Q; VNum (-4)%Q])] →
        Valid_Data_Count r = 0%Z).
Proof.
  apply (empty_rows_iff_zero_counts stable_nargsort_desc
           {| index_len := 2;
              frame_columns := [("C1MMSE", [VNa; VNa]);
                                ("C1MOCA", [VNum (-4)%Q; VNum (-4)%Q])] |}
           default_exclude default_sentinel).
  - apply stable_nargsort_desc_sorts.
  - split; [by repeat constructor|]. apply (bool_decide_unpack _). reflexivity.
  - vm_compute. reflexivity.
  - reflexivity.
Defined.

(** ** Alignment of a dataset to the catalog *)

Lemma select_dataset_columns_eq (df : DataFrame) (catalog : Catalog) :
  "variable_name" ∈ catalog_columns catalog →
  select_dataset_columns df catalog =
  Ok {| index_len := index_len df;
        frame_columns :=
          filter (λ v, v ∈ columns df) (variable_name <$> catalog_rows catalog)
            ≫= λ label, with_label label (frame_columns df) |}.
Proof.
  intros Hcol.
  unfold select_dataset_columns, catalog_variable_names, frame_getitem_list.
  rewrite bool_decide_eq_true_2 by done.
  cbn [mbind result_bind mret result_ret].
  by rewrite getitem_list_Ok by (by intros v [? _]%list_elem_of_filter).
Qed.

Lemma select_dataset_columns_no_column (df : DataFrame) (catalog : Catalog) :
  "variable_name" ∉ catalog_columns catalog →
  select_dataset_columns df catalog = Raise KeyError.
Proof.
  intros Hcol. unfold select_dataset_columns, catalog_variable_names.
  by rewrite bool_decide_eq_false_2.
Qed.

Lemma tag_assessments_cases (df : DataFrame) (mmse_cols moca_cols : list string)
    (missing_sentinel : Q) :
  (∃ tagged, tag_assessments df mmse_cols moca_cols missing_sentinel = Ok tagged) ∨
  tag_assessments df mmse_cols moca_cols missing_sentinel = Raise KeyError.
Proof.
  unfold tag_assessments.
  destruct (assessment_flags_cases df mmse_cols missing_sentinel)
    as [[has_mmse ->]| ->]; [|by right].
  cbn [mbind result_bind].
  destruct (assessment_flags_cases (frame_setitem df "has_MMSE" has_mmse)
              moca_cols missing_sentinel) as [[has_moca ->]| ->]; [|by right].
  left. by eexists.
Qed.

Lemma tag_assessments_group_columns (df : DataFrame)
    (mmse_cols moca_cols : list string) (missing_sentinel : Q)
    (tagged : DataFrame) :
  tag_assessments df mmse_cols moca_cols missing_sentinel = Ok tagged →
  (∀ c, c ∈ mmse_cols → c ∈ columns df) ∧
  (∀ c, c ∈ moca_cols → c ∈ columns df ∨ c = "has_MMSE").
Proof.
  intros (has_mmse & has_moca & H1 & H2 & ->)%tag_assessments_Ok.
  apply assessment_flags_Ok_inv in H1 as [H1 _].
  apply assessment_flags_Ok_inv in H2 as [H2 _]. split; [done|].
  intros c Hc. specialize (H2 c Hc). rewrite columns_frame_setitem in H2.
  case_bool_decide; [by left|].
  apply elem_of_app in H2 as [?|Heq]; [by left|].
  apply list_elem_of_singleton in Heq as ->. by right.
Qed.

(** X13. Tagging runs on the selected columns only:
    [align_dataset_to_catalog] raises [KeyError] when the primary group
    names a column that is no [variable_name] of the catalog, even when the
    dataset has that column, and likewise when the secondary group names
    such a column other than [has_MMSE]. *)
Theorem align_dataset_to_catalog_group_not_in_catalog
    (nargsort_desc : list Z → list nat) (df : DataFrame) (catalog : Catalog)
    (mmse_cols moca_cols : option (list string)) (missing_sentinel : Q) :
  (∃ c, c ∈ default [] mmse_cols ∧
        c ∉ variable_name <$> catalog_rows catalog) ∨
  (∃ c, c ∈ default [] moca_cols ∧
        (c ∉ variable_name <$> catalog_rows catalog) ∧ c ≠ "has_MMSE") →
  align_dataset_to_catalog nargsort_desc df catalog mmse_cols moca_cols
    missing_sentinel = Raise KeyError.
Proof.
  intros Hgroup. unfold align_dataset_to_catalog.
  destruct (decide ("variable_name" ∈ catalog_columns catalog)) as [Hcol|Hcol].
  2: { by rewrite select_dataset_columns_no_column. }
  rewrite select_dataset_columns_eq by done. cbn [mbind result_bind].
  set (subset := {| index_len := index_len df; frame_columns := _ |}).
  assert (∀ c, c ∈ columns subset → c ∈ variable_name <$> catalog_rows catalog)
    as Hsub.
  { intros c (col & -> & Hin)%list_elem_of_fmap. simpl in Hin.
    apply elem_of_getitem_list in Hin as [Hin _].
    by apply list_elem_of_filter in Hin as [_ ?]. }
  destruct (tag_assessments_cases subset (default [] mmse_cols)
              (default [] moca_cols) missing_sentinel) as [[tagged Htag]| ->];
    [|done].
  exfalso. apply tag_assessments_group_columns in Htag as [Hmmse Hmoca].
  destruct Hgroup as [(c & Hc & Hnot)|(c & Hc & Hnot & Hne)].
  - by apply Hnot, Hsub, Hmmse.
  - destruct (Hmoca c Hc) as [Hin|?]; [|done]. by apply Hnot, Hsub.
Qed.

Lemma align_dataset_to_catalog_group_not_in_catalog_witness :
  align_dataset_to_catalog stable_nargsort_desc df_scores
    (from_records [entry "C1" "C1SCORE" "MMSE Total Score" 23])
    (Some ["C1SCORE"; "C1MMSE"]) None default_sentinel
  = Raise KeyError.
Proof.
  apply align_dataset_to_catalog_group_not_in_catalog.
  left. exists "C1MMSE". split; apply (bool_decide_unpack _); reflexivity.
Defined.

(** X14. When no [variable_name] of the catalog is a column of the
    dataset, [align_dataset_to_catalog] raises [KeyError] whatever the
    groups are: either a group names a missing column, or the summary is
    left without a column to count. *)
Theorem align_dataset_to_catalog_disjoint
    (nargsort_desc : list Z → list nat) (df : DataFrame) (catalog : Catalog)
    (mmse_cols moca_cols : option (list string)) (missing_sentinel : Q) :
  (∀ v, v ∈ variable_name <$> catalog_rows catalog → v ∉ columns df) →
  align_dataset_to_catalog nargsort_desc df catalog mmse_cols moca_cols
    missing_sentinel = Raise KeyError.
Proof.
  intros Hdisjoint. unfold align_dataset_to_catalog.
  destruct (decide ("variable_name" ∈ catalog_columns catalog)) as [Hcol|Hcol].
  2: { by rewrite select_dataset_columns_no_column. }
  rewrite select_dataset_columns_eq by done. cbn [mbind result_bind].
  assert (filter (λ v, v ∈ columns df) (variable_name <$> catalog_rows catalog)
          = []) as ->.
  { destruct (filter _ _) as [|v vs] eqn:Hf; [done|].
    assert (v ∈ filter (λ v, v ∈ columns df)
                  (variable_name <$> catalog_rows catalog))
      as [Hin Hv]%list_elem_of_filter by (rewrite Hf; apply list_elem_of_here).
    by destruct (Hdisjoint v Hv). }
  cbn [mbind list_bind].
  set (subset := {| index_len := index_len df; frame_columns := [] |}).
  destruct (tag_assessments_cases subset (default [] mmse_cols)
              (default [] moca_cols) missing_sentinel) as [[tagged Htag]| ->];
    [|done].
  rewrite Htag. cbn [mbind result_bind].
  apply tag_assessments_Ok in Htag as (has_mmse & has_moca & _ & _ & ->).
  rewrite summarize_availability_all_excluded; [done| |].
  - apply (bool_decide_unpack _). reflexivity.
  - intros c Hc. exact Hc.
Qed.

Lemma align_dataset_to_catalog_disjoint_witness :
  align_dataset_to_catalog stable_nargsort_desc df_scores
    (from_records [entry "C2" "C2TRAILA" "Trail Making A" 24])
    None None default_sentinel
  = Raise KeyError.
Proof.
  apply align_dataset_to_catalog_disjoint.
  intros v Hv. apply list_elem_of_singleton in Hv as ->.
  apply (bool_decide_unpack _). reflexivity.
Defined.

Lemma summarize_availability_returns (nargsort_desc : list Z → list nat)
    (df : DataFrame) (exclude : list string) (missing_sentinel : Q)
    (c : string * list value) :
  NoDup (columns df) → c ∈ frame_columns df → c.1 ∉ exclude →
  ∃ summary,
    summarize_availability nargsort_desc df exclude missing_sentinel
    = Ok summary.
Proof.
  intros Hnd Hc Hex. rewrite summarize_availability_eq by done.
  destruct (filter (λ c, c.1 ∉ exclude) (frame_columns df)) as [|c' cs] eqn:Hf.
  - assert (c ∈ filter (λ c, c.1 ∉ exclude) (frame_columns df)) as Hin
      by by apply list_elem_of_filter.
    rewrite Hf in Hin. by apply not_elem_of_nil in Hin.
  - by eexists.
Qed.

(** X15. With a well-formed dataset, a catalog of distinct names none of
    which is a flag name and at least one of which is a dataset column,
    and groups that name selected columns only,
    [align_dataset_to_catalog] returns the tagged table and its summary:
    the tagged table has the selected columns in catalog order followed by
    [has_MMSE] and [has_MOCA] and is well formed, and the summary has a
    row for exactly the dataset columns that the catalog names, none for
    the flags. *)
Theorem align_dataset_to_catalog_returns
    (nargsort_desc : list Z → list nat) (df : DataFrame) (catalog : Catalog)
    (mmse_cols moca_cols : option (list string)) (missing_sentinel : Q) :
  let names := variable_name <$> catalog_rows catalog in
  let selected := filter (λ v, v ∈ columns df) names in
  sorts_descending nargsort_desc →
  wf_frame df →
  "variable_name" ∈ catalog_columns catalog →
  NoDup names →
  "has_MMSE" ∉ names →
  "has_MOCA" ∉ names →
  (∀ c, c ∈ default [] mmse_cols ++ default [] moca_cols → c ∈ selected) →
  selected ≠ [] →
  ∃ tagged summary,
    align_dataset_to_catalog nargsort_desc df catalog mmse_cols moca_cols
      missing_sentinel = Ok (tagged, summary) ∧
    columns tagged = selected ++ ["has_MMSE"; "has_MOCA"] ∧
    wf_frame tagged ∧
    (∀ r, r ∈ summary ↔
          ∃ c, c ∈ frame_columns df ∧ c.1 ∈ names ∧
               r = summary_row missing_sentinel (len df) c).
Proof.
  intros names selected Hsort [Hlen Hnd] Hcol Hnames Hmmse Hmoca Hgroups Hsel.
  unfold align_dataset_to_catalog.
  rewrite select_dataset_columns_eq by done. cbn [mbind result_bind].
  fold names. fold selected.
  set (cols := selected ≫= λ label, with_label label (frame_columns df)).
  set (subset := {| index_len := index_len df; frame_columns := cols |}).
  assert (∀ v, v ∈ selected → v ∈ columns df) as Hselected
    by (by intros v [? _]%list_elem_of_filter).
  assert (columns subset = selected) as Hfst
    by by apply getitem_list_labels.
  assert (∀ v, v ∈ selected → v ∈ names) as Hselnames
    by (by intros v [_ ?]%list_elem_of_filter).
  assert (NoDup selected) as Hndsel by by apply NoDup_filter.
  destruct (assessment_flags_Ok subset (default [] mmse_cols) missing_sentinel)
    as (has_mmse & H1 & [Hlen1 _]).
  { intros c Hc. rewrite Hfst. apply Hgroups, elem_of_app. by left. }
  set (out1 := frame_setitem subset "has_MMSE" has_mmse).
  assert ("has_MMSE" ∉ columns subset) as Hno1
    by (rewrite Hfst; intros ?; by apply Hmmse, Hselnames).
  assert (columns out1 = selected ++ ["has_MMSE"]) as Hcols1.
  { unfold out1. by rewrite columns_frame_setitem, bool_decide_eq_false_2, Hfst. }
  destruct (assessment_flags_Ok out1 (default [] moca_cols) missing_sentinel)
    as (has_moca & H2 & [Hlen2 _]).
  { intros c Hc. rewrite Hcols1. apply elem_of_app. left.
    apply Hgroups, elem_of_app. by right. }
  simpl in Hlen1, Hlen2.
  set (tagged := frame_setitem out1 "has_MOCA" has_moca).
  assert (tag_assessments subset (default [] mmse_cols) (default [] moca_cols)
            missing_sentinel = Ok tagged) as ->.
  { apply tag_assessments_Ok. by exists has_mmse, has_moca. }
  cbn [mbind result_bind].
  assert ("has_MOCA" ∉ columns out1) as Hno2.
  { rewrite Hcols1, elem_of_app, list_elem_of_singleton.
    intros [?|?]; [|done]. by apply Hmoca, Hselnames. }
  assert (frame_columns tagged =
          cols ++ [("has_MMSE", has_mmse); ("has_MOCA", has_moca)]) as Hftag.
  { unfold tagged, out1. rewrite frame_setitem_new by done.
    rewrite frame_setitem_new by done. by rewrite <- app_assoc. }
  assert (columns tagged = selected ++ ["has_MMSE"; "has_MOCA"]) as Hctag.
  { unfold columns at 1. rewrite Hftag, fmap_app. simpl.
    by rewrite <- Hfst. }
  assert (NoDup (columns tagged)) as Hndtag.
  { rewrite Hctag. apply NoDup_app. split; [done|]. split.
    - intros c Hc Hflag. apply Hselnames in Hc.
      apply elem_of_cons in Hflag as [->|Hflag]; [done|].
      by apply list_elem_of_singleton in Hflag as ->.
    - apply (bool_decide_unpack _). reflexivity. }
  assert (∀ c, c ∈ cols ↔ c ∈ frame_columns df ∧ c.1 ∈ names) as Hcolsin.
  { intros c. unfold cols. rewrite elem_of_getitem_list. unfold selected.
    rewrite list_elem_of_filter. split; [tauto|].
    intros [Hc Hn]. split; [|done]. split; [|done]. by apply list_elem_of_fmap_2. }
  destruct selected as [|v0 selected'] eqn:Hseleq; [done|].
  assert (v0 ∈ columns df) as (c0 & -> & Hc0)%list_elem_of_fmap
    by apply Hselected, list_elem_of_here.
  assert (c0 ∈ cols) as Hc0cols.
  { apply Hcolsin. split; [done|]. apply Hselnames, list_elem_of_here. }
  destruct (summarize_availability_returns nargsort_desc tagged
              ["has_MMSE"; "has_MOCA"] missing_sentinel c0) as [summary Hsum].
  { done. }
  { rewrite Hftag. apply elem_of_app. by left. }
  { intros Hflag. apply elem_of_cons in Hflag as [Heq|Hflag].
    - apply Hmmse. rewrite <- Heq. apply Hselnames, list_elem_of_here.
    - apply list_elem_of_singleton in Hflag.
      apply Hmoca. rewrite <- Hflag. apply Hselnames, list_elem_of_here. }
  rewrite Hsum. cbn [mbind result_bind mret result_ret].
  exists tagged, summary. split; [done|]. split; [done|]. split.
  - split; [|done]. rewrite Hftag. apply Forall_app. split.
    + rewrite Forall_forall in Hlen |- *. intros c Hc. simpl.
      apply Hlen. by apply Hcolsin in Hc as [? _].
    + by repeat constructor.
  - intros r.
    rewrite (summarize_availability_rows _ _ _ _ _ r Hsort Hndtag Hsum).
    split.
    + intros (c & Hc & Hex & ->). exists c. rewrite Hftag in Hc.
      apply elem_of_app in Hc as [Hc|Hc].
      * apply Hcolsin in Hc as [? ?]. done.
      * destruct Hex.
        apply elem_of_cons in Hc as [->|Hc]; [apply list_elem_of_here|].
        apply list_elem_of_singleton in Hc as ->.
        apply list_elem_of_further, list_elem_of_here.
    + intros (c & Hc & Hn & ->). exists c. split; [|split; [|done]].
      * rewrite Hftag. apply elem_of_app. left. by apply Hcolsin.
      * intros Hflag. apply elem_of_cons in Hflag as [Heq|Hflag].
        -- apply Hmmse. by rewrite <- Heq.
        -- apply list_elem_of_singleton in Hflag. apply Hmoca.
           by rewrite <- Hflag.
Qed.

Lemma align_dataset_to_catalog_returns_witness :
  ∃ tagged summary,
    align_dataset_to_catalog stable_nargsort_desc df_scores catalog_moca_first
      (Some ["C1SCORE"]) None default_sentinel = Ok (tagged, summary) ∧
    columns tagged =
      filter (λ v, v ∈ columns df_scores)
        (variable_name <$> catalog_rows catalog_moca_first)
      ++ ["has_MMSE"; "has_MOCA"] ∧
    wf_frame tagged ∧
    (∀ r, r ∈ summary ↔
          ∃ c, c ∈ frame_columns df_scores ∧
               c.1 ∈ variable_name <$> catalog_rows catalog_moca_first ∧
               r = summary_row default_sentinel (len df_scores) c).
Proof.
  apply (align_dataset_to_catalog_returns stable_nargsort_desc df_scores
           catalog_moca_first (Some ["C1SCORE"]) None default_sentinel).
  - apply stable_nargsort_desc_sorts.
  - apply wf_frame_df_scores.
  - apply (bool_decide_unpack _). reflexivity.
  - apply (bool_decide_unpack _). reflexivity.
  - apply (bool_decide_unpack _). reflexivity.
  - apply (bool_decide_unpack _). reflexivity.
  - intros c Hc. apply list_elem_of_singleton in Hc as ->.
    apply (bool_decide_unpack _). reflexivity.
  - discriminate.
Defined.

(** ** The command line script: column lists *)

Lemma is_substring_comma_cons (a : ascii) (piece : string) :
  is_substring "," (String a piece) =
  bool_decide (a = ","%char) || is_substring "," piece.
Proof.
  cbn [is_substring String.prefix]. f_equal.
  destruct (ascii_dec "," a) as [<-|Hne].
  - rewrite bool_decide_eq_true_2 by done. by destruct piece.
  - by rewrite bool_decide_eq_false_2.
Qed.

Lemma split_comma_nonempty (v : string) : split_comma v ≠ [].
Proof.
  induction v as [|a v IH]; [done|]. cbn [split_comma].
  destruct (Ascii.eqb a ","); [done|]. by destruct (split_comma v).
Qed.

Lemma split_comma_no_comma (v piece : string) :
  piece ∈ split_comma v → is_substring "," piece = false.
Proof.
  revert piece. induction v as [|a v IH]; intros piece.
  - intros ->%list_elem_of_singleton. done.
  - cbn [split_comma]. destruct (Ascii.eqb a ",") eqn:Ha.
    + intros [->|Hin]%elem_of_cons; [done|]. by apply IH.
    + apply Ascii.eqb_neq in Ha.
      destruct (split_comma v) as [|p ps] eqn:Hv;
        [by destruct (split_comma_nonempty v)|].
      intros [->|Hin]%elem_of_cons.
      * rewrite is_substring_comma_cons, bool_decide_eq_false_2 by done.
        apply IH, list_elem_of_here.
      * by apply IH, list_elem_of_further.
Qed.

Lemma split_comma_single (c : string) :
  is_substring "," c = false → split_comma c = [c].
Proof.
  induction c as [|a c IH]; [done|].
  rewrite is_substring_comma_cons. intros [Ha Hc]%orb_false_iff.
  apply bool_decide_eq_false in Ha. cbn [split_comma].
  rewrite (proj2 (Ascii.eqb_neq a ",")) by done. by rewrite IH.
Qed.

(** The values that the second loop of [_split_cols] keeps, by the flags
    of [duplicated]. *)
Lemma uniq_loop_eq (seen : gset string) (uniq out : list string) :
  uniq_loop seen uniq out =
  uniq ++ mask_select out (negb <$> duplicated seen out).
Proof.
  revert seen uniq. induction out as [|c out IH]; intros seen uniq.
  - by rewrite app_nil_r.
  - cbn [uniq_loop duplicated fmap list_fmap mask_select].
    fold (@fmap list _ _ _ negb (duplicated ({[c]} ∪ seen) out)).
    destruct (decide (c ∈ seen)) as [Hc|Hc].
    + rewrite bool_decide_eq_false_2 by (by intros ?).
      rewrite (bool_decide_eq_true_2 (c ∈ seen)) by done. cbn [negb].
      rewrite IH. replace ({[c]} ∪ seen) with seen; [done|]. symmetry.
      by apply subseteq_union_1_L, singleton_subseteq_l.
    + rewrite bool_decide_eq_true_2 by done.
      rewrite (bool_decide_eq_false_2 (c ∈ seen)) by done. cbn [negb].
      by rewrite IH, <- app_assoc.
Qed.

Lemma first_values_from (seen : gset string) (out : list string) :
  let kept := mask_select out (negb <$> duplicated seen out) in
  NoDup kept ∧ ∀ c, c ∈ kept ↔ c ∈ out ∧ c ∉ seen.
Proof.
  revert seen. induction out as [|c out IH]; intros seen.
  - simpl. split; [constructor|]. intros c.
    split; [by intros ?%not_elem_of_nil|by intros [?%not_elem_of_nil _]].
  - destruct (IH ({[c]} ∪ seen)) as [Hnd Hin]. clear IH.
    cbn [duplicated fmap list_fmap mask_select].
    fold (@fmap list _ _ _ negb (duplicated ({[c]} ∪ seen) out)).
    set (kept' := mask_select out _) in *.
    case_bool_decide as Hc; cbn [negb].
    + split; [done|]. intros c'. rewrite Hin, elem_of_cons.
      rewrite not_elem_of_union, not_elem_of_singleton. split.
      * intros (? & ? & ?). split; [by right|done].
      * intros [[->|?] ?]; [done|]. split; [done|]. split; [|done].
        by intros ->.
    + split.
      * apply NoDup_cons. split; [|done]. rewrite Hin.
        rewrite not_elem_of_union, not_elem_of_singleton. by intros (_ & ? & _).
      * intros c'. rewrite !elem_of_cons, Hin.
        rewrite not_elem_of_union, not_elem_of_singleton. split.
        -- intros [->|(? & ? & ?)]; [split; [by left|done]|].
           split; [by right|done].
        -- intros [[->|?] ?]; [by left|].
           destruct (decide (c' = c)) as [->|?]; [by left|by right].
Qed.

Lemma _split_cols_eq (values : option (list string)) :
  _split_cols values = uniq_loop ∅ [] (split_pieces (default [] values)).
Proof. by destruct values as [[|v values]|]. Qed.

(** X16. The names that [_split_cols] returns are distinct, none is empty
    and none contains a comma; they are exactly the non-empty pieces
    between the commas of the given values, and there is none when the
    option was not given. *)
Theorem _split_cols_names (values : option (list string)) :
  NoDup (_split_cols values) ∧
  ∀ c, c ∈ _split_cols values ↔
       c ≠ "" ∧ ¬ occurs_in "," c ∧
       ∃ v, v ∈ default [] values ∧ c ∈ split_comma v.
Proof.
  rewrite _split_cols_eq, uniq_loop_eq, app_nil_l.
  destruct (first_values_from ∅ (split_pieces (default [] values)))
    as [Hnd Hin].
  split; [done|]. intros c. rewrite Hin. unfold split_pieces.
  rewrite list_elem_of_bind. split.
  - intros [(v & [Hc Hv]%list_elem_of_filter & Hvs) _]. split; [done|].
    split; [|by exists v]. rewrite <- is_substring_spec.
    by rewrite (split_comma_no_comma v c).
  - intros (Hc & _ & v & Hvs & Hv). split; [|apply not_elem_of_empty].
    exists v. split; [|done]. by apply list_elem_of_filter.
Qed.

Lemma first_values_app (seen : gset string) (l1 l2 : list string) :
  mask_select (l1 ++ l2) (negb <$> duplicated seen (l1 ++ l2)) =
  mask_select l1 (negb <$> duplicated seen l1) ++
  mask_select l2 (negb <$> duplicated (list_to_set l1 ∪ seen) l2).
Proof.
  revert seen. induction l1 as [|c l1 IH]; intros seen.
  - simpl. by rewrite union_empty_l_L.
  - rewrite <- app_comm_cons.
    cbn [duplicated fmap list_fmap mask_select].
    fold (@fmap list _ _ _ negb (duplicated ({[c]} ∪ seen) (l1 ++ l2))).
    fold (@fmap list _ _ _ negb (duplicated ({[c]} ∪ seen) l1)).
    rewrite IH.
    replace (list_to_set l1 ∪ ({[c]} ∪ seen))
      with (list_to_set (c :: l1) ∪ seen : gset string).
    + by destruct (negb (bool_decide (c ∈ seen))).
    + cbn [list_to_set]. by rewrite (comm_L (∪) {[c]}), <- (assoc_L (∪)).
Qed.

Lemma first_values_filter (s1 s2 : gset string) (l : list string) :
  mask_select l (negb <$> duplicated (s1 ∪ s2) l) =
  filter (λ c, c ∉ s1) (mask_select l (negb <$> duplicated s2 l)).
Proof.
  revert s2. induction l as [|c l IH]; intros s2; [done|].
  cbn [duplicated fmap list_fmap mask_select].
  fold (@fmap list _ _ _ negb (duplicated ({[c]} ∪ (s1 ∪ s2)) l)).
  fold (@fmap list _ _ _ negb (duplicated ({[c]} ∪ s2) l)).
  replace ({[c]} ∪ (s1 ∪ s2)) with (s1 ∪ ({[c]} ∪ s2)).
  2: { by rewrite !(assoc_L (∪)), (comm_L (∪) s1). }
  rewrite IH. destruct (decide (c ∈ s2)) as [H2|H2].
  - rewrite (bool_decide_eq_true_2 (c ∈ s2)) by done.
    rewrite bool_decide_eq_true_2 by (apply elem_of_union; by right). done.
  - rewrite (bool_decide_eq_false_2 (c ∈ s2)) by done. cbn [negb].
    rewrite filter_cons. destruct (decide (c ∈ s1)) as [H1|H1].
    + rewrite bool_decide_eq_true_2 by (apply elem_of_union; by left).
      by rewrite decide_False by (by intros ?).
    + rewrite bool_decide_eq_false_2
        by (rewrite elem_of_union; by intros [?|?]).
      by rewrite decide_True.
Qed.

Lemma split_pieces_app (values1 values2 : list string) :
  split_pieces (values1 ++ values2) =
  split_pieces values1 ++ split_pieces values2.
Proof. unfold split_pieces. apply bind_app. Qed.

(** X17. Later values only add what is new: the names of a list of values
    followed by another are the names of the first list followed by those
    names of the second that the first did not give, each in its
    order. *)
Theorem _split_cols_app (values1 values2 : list string) :
  _split_cols (Some (values1 ++ values2)) =
  _split_cols (Some values1) ++
  filter (λ c, c ∉ _split_cols (Some values1)) (_split_cols (Some values2)).
Proof.
  rewrite !_split_cols_eq. simpl. rewrite split_pieces_app.
  rewrite !uniq_loop_eq, !app_nil_l, first_values_app. f_equal.
  rewrite first_values_filter. apply list_filter_iff. intros c.
  destruct (first_values_from ∅ (split_pieces values1)) as [_ Hin].
  rewrite Hin, elem_of_list_to_set. split.
  - intros Hc [? _]. done.
  - intros Hc ?. apply Hc. split; [done|]. apply not_elem_of_empty.
Qed.

Lemma first_values_NoDup (seen : gset string) (l : list string) :
  NoDup l → (∀ c, c ∈ l → c ∉ seen) →
  mask_select l (negb <$> duplicated seen l) = l.
Proof.
  revert seen. induction l as [|c l IH]; intros seen Hnd Hseen; [done|].
  apply NoDup_cons in Hnd as [Hc Hnd].
  cbn [duplicated fmap list_fmap mask_select].
  fold (@fmap list _ _ _ negb (duplicated ({[c]} ∪ seen) l)).
  rewrite bool_decide_eq_false_2 by apply Hseen, list_elem_of_here.
  cbn [negb]. f_equal. apply IH; [done|]. intros c' Hc'.
  rewrite not_elem_of_union, not_elem_of_singleton. split.
  - by intros ->.
  - by apply Hseen, list_elem_of_further.
Qed.

Lemma split_pieces_names (names : list string) :
  (∀ c, c ∈ names → c ≠ "" ∧ is_substring "," c = false) →
  split_pieces names = names.
Proof.
  unfold split_pieces. induction names as [|c names IH]; intros Hnames; [done|].
  destruct (Hnames c (list_elem_of_here _ _)) as [Hc Hcomma].
  rewrite bind_cons, split_comma_single by done.
  rewrite filter_cons, decide_True, filter_nil by done. simpl. f_equal.
  apply IH. intros ? ?. by apply Hnames, list_elem_of_further.
Qed.

(** X18. Names that [_split_cols] has returned pass through it unchanged:
    splitting its result again gives the same list. *)
Theorem _split_cols_idempotent (values : option (list string)) :
  _split_cols (Some (_split_cols values)) = _split_cols values.
Proof.
  rewrite (_split_cols_eq (Some _)). cbn [default from_option].
  rewrite _split_cols_eq, !uniq_loop_eq, !app_nil_l.
  set (out := split_pieces (default [] values)).
  destruct (first_values_from ∅ out) as [Hnd Hin].
  set (names := mask_select out (negb <$> duplicated ∅ out)) in *.
  rewrite split_pieces_names.
  - apply first_values_NoDup; [done|]. intros ? _. apply not_elem_of_empty.
  - intros c [Hc _]%Hin. unfold out, split_pieces in Hc.
    apply list_elem_of_bind in Hc as (v & [Hne Hv]%list_elem_of_filter & _).
    split; [done|]. by apply (split_comma_no_comma v).
Qed.

Example _split_cols_options :
  _split_cols (Some ["C1SCORE,C1MMSE"; "C1MOCA,,C1SCORE"; ""]) =
  ["C1SCORE"; "C1MMSE"; "C1MOCA"].
Proof. reflexivity. Qed.

(** ** The command line script: the statistics *)

Lemma count_true_negb (mask : list bool) :
  (count_true mask + count_true (negb <$> mask))%Z = Z.of_nat (length mask).
Proof.
  unfold count_true. induction mask as [|b mask IH]; [done|].
  rewrite fmap_cons, !filter_cons. cbn [length].
  destruct b; simpl; lia.
Qed.

(** X19. The statistics of [main] are always produced, and the number of
    completely empty rows and the number of rows with some data add up to
    the number of rows of the cleaned table. *)
Theorem stats_counts_add_up (cleaned : DataFrame) :
  ∃ empty with_data : Z,
    stats_counts cleaned = Ok (len cleaned, empty, with_data) ∧
    (0 ≤ empty)%Z ∧ (0 ≤ with_data)%Z ∧
    (empty + with_data)%Z = Z.of_nat (len cleaned).
Proof.
  unfold stats_counts. rewrite compute_empty_rows_mask_eq.
  cbn [mbind result_bind mret result_ret].
  set (mask := _ <$> iterrows cleaned).
  exists (count_true mask), (count_true (negb <$> mask)).
  split; [done|]. split; [unfold count_true; lia|].
  split; [unfold count_true; lia|].
  rewrite count_true_negb. unfold mask.
  by rewrite length_fmap, length_iterrows.
Qed.

(** ** Empty-row detector: exclusions and tagging *)

Lemma compute_empty_rows_mask_length (df : DataFrame) (exclude : list string)
    (missing_sentinel : Q) (mask : list bool) :
  compute_empty_rows_mask df exclude missing_sentinel = Ok mask →
  length mask = index_len df.
Proof.
  rewrite compute_empty_rows_mask_eq. intros [= <-].
  by rewrite length_fmap, length_iterrows.
Qed.

Lemma compute_empty_rows_mask_ext (df df' : DataFrame)
    (exclude exclude' : list string) (missing_sentinel : Q) :
  index_len df = index_len df' →
  (∀ c, c ∈ frame_columns df ∧ c.1 ∉ exclude ↔
        c ∈ frame_columns df' ∧ c.1 ∉ exclude') →
  compute_empty_rows_mask df exclude missing_sentinel =
  compute_empty_rows_mask df' exclude' missing_sentinel.
Proof.
  intros Hlen Hcols.
  pose proof (compute_empty_rows_mask_eq df exclude missing_sentinel) as H1.
  pose proof (compute_empty_rows_mask_eq df' exclude' missing_sentinel) as H2.
  rewrite H1, H2. f_equal. apply list_eq. intros i.
  destruct (decide (i < index_len df)) as [Hi|Hi].
  - destruct (compute_empty_rows_mask_lookup _ _ _ _ i H1 Hi)
      as (f1 & -> & Hf1).
    rewrite Hlen in Hi.
    destruct (compute_empty_rows_mask_lookup _ _ _ _ i H2 Hi)
      as (f2 & -> & Hf2).
    f_equal. destruct f1, f2; try done; exfalso.
    + destruct Hf2 as [Hf2 _].
      destruct (Hf2 eq_refl) as (c & Hc & Hex & Hv).
      destruct Hf1 as [_ Hf1]. assert (true = false) as [=]. apply Hf1.
      exists c. destruct (proj2 (Hcols c)) as [? ?]; done.
    + destruct Hf1 as [Hf1 _].
      destruct (Hf1 eq_refl) as (c & Hc & Hex & Hv).
      destruct Hf2 as [_ Hf2]. assert (true = false) as [=]. apply Hf2.
      exists c. destruct (proj1 (Hcols c)) as [? ?]; done.
  - rewrite !lookup_ge_None_2; [done| |];
      rewrite length_fmap, length_iterrows; lia.
Qed.

(** X20. Excluding more columns can only make more records empty: a record
    that [compute_empty_rows_mask] flags as empty stays flagged when every
    excluded label stays excluded. *)
Theorem compute_empty_rows_mask_exclude_more (df : DataFrame)
    (exclude exclude' : list string) (missing_sentinel : Q)
    (mask mask' : list bool) (i : nat) :
  (∀ c, c ∈ exclude → c ∈ exclude') →
  compute_empty_rows_mask df exclude missing_sentinel = Ok mask →
  compute_empty_rows_mask df exclude' missing_sentinel = Ok mask' →
  mask !! i = Some true →
  mask' !! i = Some true.
Proof.
  intros Hsub Hmask Hmask' Hi.
  assert (i < index_len df) as Hlt.
  { rewrite <- (compute_empty_rows_mask_length _ _ _ _ Hmask).
    by apply lookup_lt_Some in Hi. }
  destruct (compute_empty_rows_mask_lookup _ _ _ _ i Hmask Hlt)
    as (f & Hf & Hempty).
  destruct (compute_empty_rows_mask_lookup _ _ _ _ i Hmask' Hlt)
    as (f' & -> & Hempty').
  rewrite Hi in Hf. injection Hf as <-. f_equal.
  destruct f'; [done|]. exfalso.
  destruct Hempty' as [Hempty' _].
  destruct (Hempty' eq_refl) as (c & Hc & Hex & Hv).
  destruct Hempty as [_ Hempty]. assert (true = false) as [=]. apply Hempty.
  exists c. split; [done|]. split; [|done]. intros ?. by apply Hex, Hsub.
Qed.

Lemma compute_empty_rows_mask_exclude_more_witness :
  [true; false] !! 0 = Some true.
Proof.
  apply (compute_empty_rows_mask_exclude_more df_scores
           ["C1MOCA"] ["C1MOCA"; "C1MMSE"] default_sentinel
           [true; false] [true; false] 0).
  - intros c Hc. apply list_elem_of_singleton in Hc as ->.
    apply list_elem_of_here.
  - reflexivity.
  - reflexivity.
  - reflexivity.
Defined.

(** X21. Tagging does not change which records are empty: for every
    sentinel, [compute_empty_rows_mask] with its default exclusions gives
    the same result on the tagged table as on the table that was
    tagged. *)
Theorem compute_empty_rows_mask_tagged (df : DataFrame)
    (mmse_cols moca_cols : list string) (tag_sentinel missing_sentinel : Q)
    (tagged : DataFrame) :
  tag_assessments df mmse_cols moca_cols tag_sentinel = Ok tagged →
  compute_empty_rows_mask tagged default_exclude missing_sentinel =
  compute_empty_rows_mask df default_exclude missing_sentinel.
Proof.
  intros (has_mmse & has_moca & _ & _ & ->)%tag_assessments_Ok.
  apply compute_empty_rows_mask_ext; [done|]. intros c.
  assert (c.1 ∉ default_exclude → c.1 ≠ "has_MMSE" ∧ c.1 ≠ "has_MOCA")
    as Hflags.
  { intros Hex. split; intros Heq; apply Hex; rewrite Heq.
    - apply list_elem_of_here.
    - apply list_elem_of_further, list_elem_of_here. }
  split; intros [Hc Hex]; destruct (Hflags Hex) as [Hmmse Hmoca];
    (split; [|done]).
  - by apply frame_setitem_other, frame_setitem_other in Hc.
  - by apply frame_setitem_other, frame_setitem_other.
Qed.

Lemma compute_empty_rows_mask_tagged_witness :
  compute_empty_rows_mask
    {| index_len := 2;
       frame_columns :=
         [("C1SCORE", [VNum (-4)%Q; VNum 24%Q]);
          ("C1MMSE", [VNa; VNa]);
          ("C1MOCA", [VNum (-4)%Q; VNum (-4)%Q]);
          ("has_MMSE", [VBool false; VBool true]);
          ("has_MOCA", [VBool false; VBool false])] |}
    default_exclude default_sentinel =
  compute_empty_rows_mask df_scores default_exclude default_sentinel.
Proof.
  apply (compute_empty_rows_mask_tagged df_scores ["C1SCORE"; "C1MMSE"]
           ["C1MOCA"] default_sentinel).
  reflexivity.
Defined.

(** ** Availability summarizer: one row per column *)

(** X22. The summary has one row for each non-excluded column and no
    other: it is a rearrangement of the rows computed in column order, no
    column is reported twice, and the number of rows is the number of
    non-excluded columns. *)
Theorem summarize_availability_one_row_per_column
    (nargsort_desc : list Z → list nat) (df : DataFrame)
    (exclude : list string) (missing_sentinel : Q)
    (summary : list SummaryRow) :
  sorts_descending nargsort_desc →
  NoDup (columns df) →
  summarize_availability nargsort_desc df exclude missing_sentinel
    = Ok summary →
  summary ≡ₚ summary_row missing_sentinel (len df)
               <$> filter (λ c, c.1 ∉ exclude) (frame_columns df) ∧
  Column <$> summary ≡ₚ filter (λ c, c ∉ exclude) (columns df) ∧
  NoDup (Column <$> summary) ∧
  length summary = length (filter (λ c, c ∉ exclude) (columns df)).
Proof.
  intros Hsort Hnd. rewrite summarize_availability_eq by done.
  set (rows := summary_row missing_sentinel (len df)
                 <$> filter (λ c, c.1 ∉ exclude) (frame_columns df)).
  intros Hsummary.
  assert (summary ≡ₚ rows) as Hperm.
  { destruct rows as [|r rows'] eqn:Hrows; [done|].
    injection Hsummary as <-. apply take_rows_Permutation.
    rewrite <- (length_fmap Valid_Data_Count). apply Hsort. }
  assert (Column <$> rows = filter (λ c, c ∉ exclude) (columns df)) as Hcols.
  { unfold rows, columns. generalize (len df) (frame_columns df).
    intros n cs. induction cs as [|c cs IH]; [done|].
    rewrite fmap_cons, !filter_cons. simpl.
    destruct (decide (c.1 ∉ exclude)); [|done].
    rewrite !fmap_cons. simpl. by rewrite IH. }
  split; [done|]. rewrite Hperm, Hcols.
  split; [done|]. split; [by apply NoDup_filter|].
  by rewrite <- Hcols, length_fmap.
Qed.

Lemma summarize_availability_one_row_per_column_witness :
  let summary :=
    [summary_row default_sentinel 2 ("C1SCORE", [VNum (-4)%Q; VNum 24%Q]);
     summary_row default_sentinel 2 ("C1MMSE", [VNa; VNa]);
     summary_row default_sentinel 2 ("C1MOCA", [VNum (-4)%Q; VNum (-4)%Q])] in
  summary ≡ₚ summary_row default_sentinel (len df_scores)
               <$> filter (λ c, c.1 ∉ default_exclude)
                     (frame_columns df_scores) ∧
  Column <$> summary ≡ₚ filter (λ c, c ∉ default_exclude) (columns df_scores) ∧
  NoDup (Column <$> summary) ∧
  length summary =
    length (filter (λ c, c ∉ default_exclude) (columns df_scores)).
Proof.
  apply (summarize_availability_one_row_per_column stable_nargsort_desc).
  - apply stable_nargsort_desc_sorts.
  - apply wf_frame_df_scores.
  - vm_compute. reflexivity.
Defined.

(** ** From the catalog builder to the column aligner *)

(** X23. A catalog returned by [build_variable_catalog] can be handed to
    [select_dataset_columns] exactly when it has an entry: without entries
    the selection raises [KeyError]; with entries it returns, for a
    dataset with distinct labels, the dataset columns that the catalog
    names, in catalog order and each once. *)
Theorem select_dataset_columns_built_catalog (pdf : Document) (start end_ : Z)
    (forms_filter : list string) (catalog : Catalog) (df : DataFrame) :
  build_variable_catalog pdf (start, end_) forms_filter = Ok catalog →
  NoDup (columns df) →
  (catalog_rows catalog = [] ∧
   select_dataset_columns df catalog = Raise KeyError) ∨
  (catalog_rows catalog ≠ [] ∧
   ∃ subset,
     select_dataset_columns df catalog = Ok subset ∧
     columns subset =
       filter (λ v, v ∈ columns df) (variable_name <$> catalog_rows catalog) ∧
     NoDup (columns subset)).
Proof.
  intros (all_pages_rows & records & _ & _ & Hcols & Hrows)
           %build_variable_catalog_Ok Hnd.
  destruct records as [|r records].
  - left. split; [done|]. apply select_dataset_columns_no_column.
    rewrite Hcols. apply not_elem_of_nil.
  - right. split; [by rewrite Hrows|].
    rewrite select_dataset_columns_eq
      by (rewrite Hcols; apply list_elem_of_further, list_elem_of_here).
    eexists. split; [done|].
    assert (∀ names : list string,
              (filter (λ v, v ∈ columns df) names
                 ≫= λ label, with_label label (frame_columns df)).*1
              = filter (λ v, v ∈ columns df) names) as Hlabels.
    { intros names. apply getitem_list_labels; [done|].
      by intros v [? _]%list_elem_of_filter. }
    assert (∀ cs, columns {| index_len := index_len df; frame_columns := cs |}
                  = cs.*1) as Hsel by done.
    rewrite !Hsel, Hlabels. split; [done|].
    apply NoDup_filter. rewrite Hrows.
    apply (drop_duplicates_from ∅ (r :: records)).
Qed.

Lemma select_dataset_columns_built_catalog_witness :
  (catalog_rows catalog_uds = [] ∧
   select_dataset_columns df_scores catalog_uds = Raise KeyError) ∨
  (catalog_rows catalog_uds ≠ [] ∧
   ∃ subset,
     select_dataset_columns df_scores catalog_uds = Ok subset ∧
     columns subset =
       filter (λ v, v ∈ columns df_scores)
         (variable_name <$> catalog_rows catalog_uds) ∧
     NoDup (columns subset)).
Proof.
  apply (select_dataset_columns_built_catalog pdf_uds 23 27
           default_forms_filter).
  - reflexivity.
  - apply wf_frame_df_scores.
Defined.
